(** * bot.py: file discovery, normalisation to CSV, archive assembly

    A shallow embedding of [src/bot.py].  The program is sequential file
    I/O around three library collaborators (glob, pandas, zipfile) and a
    messaging transport.  The embedding keeps the code's own structure:

    - the filesystem is a finite map from path strings to nodes (regular
      file with its bytes, or directory); two different strings name two
      different objects (no symbolic links, paths are in normal form, as
      [os.path.normpath] leaves the configured one);
    - path and string functions follow the POSIX flavour of [os.path],
      [pathlib] and [fnmatch] (separator [/], case-sensitive matching);
      [str.lower] and [str.strip] act on ASCII;
    - effects (filesystem writes, standard output, messages handed to the
      transport, raised exceptions) are threaded by a small state and
      exception monad, with [try/finally], [try/except: pass] and the
      exit of a [with] block as combinators;
    - what the libraries compute from bytes (the spreadsheet reader, the
      CSV writer, the ZIP encoder), the text of an exception, which files
      zipfile refuses and whether the transport raises are parameters of
      the development;
    - every path the process touches is one it may read and write:
      permissions are not part of the filesystem. *)

From Stdlib Require Import Ascii String List Bool Arith Lia.
From stdpp Require Import base option list gmap strings sorting.

Open Scope string_scope.
Open Scope list_scope.

(** ** Strings as Python uses them *)

Module Str.

(** [c.lower()] on one ASCII character. *)
Definition lower_ascii (c : ascii) : ascii :=
  let n := nat_of_ascii c in
  if (65 <=? n)%nat && (n <=? 90)%nat then ascii_of_nat (n + 32) else c.

(** [s.lower()] *)
Fixpoint lower (s : string) : string :=
  match s with
  | EmptyString => EmptyString
  | String c s' => String (lower_ascii c) (lower s')
  end.

(** [s.startswith(pre)] *)
Fixpoint startswith (s pre : string) : bool :=
  match pre, s with
  | EmptyString, _ => true
  | String _ _, EmptyString => false
  | String a pre', String b s' => if Ascii.eqb a b then startswith s' pre' else false
  end.

(** [s.endswith(suf)]: [suf] is one of the tails of [s]. *)
Fixpoint endswith (s suf : string) : bool :=
  if String.eqb s suf then true
  else match s with
       | EmptyString => false
       | String _ s' => endswith s' suf
       end.

(** [s.endswith((suf1, suf2, ...))] with a tuple of suffixes. *)
Definition endswith_any (s : string) (sufs : list string) : bool :=
  existsb (endswith s) sufs.

(** [s[n:]] *)
Fixpoint drop (n : nat) (s : string) : string :=
  match n, s with
  | O, _ => s
  | S _, EmptyString => EmptyString
  | S n', String _ s' => drop n' s'
  end.

(** [c in s] *)
Fixpoint contains (c : ascii) (s : string) : bool :=
  match s with
  | EmptyString => false
  | String a s' => Ascii.eqb a c || contains c s'
  end.

(** [s.split(c)] for a one-character separator: the pieces between
    the separators, empty pieces included. *)
Fixpoint split_go (c : ascii) (cur : string) (s : string) : list string :=
  match s with
  | EmptyString => [String.rev cur]
  | String a s' =>
      if Ascii.eqb a c then String.rev cur :: split_go c EmptyString s'
      else split_go c (String a cur) s'
  end.
Definition split (c : ascii) (s : string) : list string := split_go c EmptyString s.

(** [s.lstrip(chars)] and [s.rstrip(chars)], [s.strip(chars)] *)
Fixpoint lstrip (chars : ascii -> bool) (s : string) : string :=
  match s with
  | EmptyString => EmptyString
  | String a s' => if chars a then lstrip chars s' else s
  end.
Definition rstrip (chars : ascii -> bool) (s : string) : string :=
  String.rev (lstrip chars (String.rev s)).
Definition strip_chars (chars : ascii -> bool) (s : string) : string :=
  rstrip chars (lstrip chars s).

(** The ASCII characters [str.isspace] accepts: tab, line feed, vertical
    tab, form feed, carriage return, the four separators 28..31, space. *)
Definition isspace (c : ascii) : bool :=
  let n := nat_of_ascii c in
  ((9 <=? n)%nat && (n <=? 13)%nat) || ((28 <=? n)%nat && (n <=? 32)%nat).

(** [s.strip()] *)
Definition strip (s : string) : string := strip_chars isspace s.

(** [s.rfind(c)]: index of the last occurrence, [None] for Python's -1. *)
Fixpoint rfind_go (c : ascii) (i : nat) (last : option nat) (s : string) : option nat :=
  match s with
  | EmptyString => last
  | String a s' => rfind_go c (S i) (if Ascii.eqb a c then Some i else last) s'
  end.
Definition rfind (c : ascii) (s : string) : option nat := rfind_go c 0 None s.

(** [s[:n]] *)
Fixpoint take (n : nat) (s : string) : string :=
  match n, s with
  | O, _ => EmptyString
  | S _, EmptyString => EmptyString
  | S n', String a s' => String a (take n' s')
  end.

End Str.

(** ** Paths: [os.path] and [pathlib] on POSIX *)

Module Path.

Definition sep : ascii := "/"%char.

(** [os.path.join(a, b)]: an absolute [b] discards [a]; otherwise one
    separator is put between them unless [a] is empty or already ends
    with one. *)
Definition join (a b : string) : string :=
  if Str.startswith b "/" then b
  else if String.eqb a "" || Str.endswith a "/" then a +:+ b
  else a +:+ "/" +:+ b.

(** The components [pathlib.PurePosixPath] keeps: the pieces between
    separators that are neither empty nor a single dot. *)
Definition parts (p : string) : list string :=
  filter (fun x => x <> "" /\ x <> ".") (Str.split sep p).

(** [Path(p).name]: the final component, the empty string if none. *)
Definition name (p : string) : string := List.last (parts p) "".

(** [Path(p).stem]: the name without its last suffix; a dot that
    starts or ends the name does not begin a suffix. *)
Definition stem_of_name (n : string) : string :=
  match Str.rfind "."%char n with
  | Some i => if (0 <? i)%nat && (i <? String.length n - 1)%nat then Str.take i n else n
  | None => n
  end.
Definition stem (p : string) : string := stem_of_name (name p).

(** [os.path.split(p)]: head and tail around the last separator; the
    head loses its trailing separators unless it is the root. *)
Definition split (p : string) : string * string :=
  match Str.rfind sep p with
  | None => ("", p)
  | Some i =>
      let head := Str.take (S i) p in
      let tail := Str.drop (S i) p in
      let head' := Str.rstrip (Ascii.eqb sep) head in
      (if String.eqb head' "" then head else head', tail)
  end.

End Path.

(** ** Exceptions, filesystem, messages *)

Definition bytes := string.

Inductive exn :=
  | RuntimeError (msg : string)
  | ValueError (msg : string)
  | FileExistsError (path : string)
  | FileNotFoundError (path : string)
  | IsADirectoryError (path : string)
  | NotADirectoryError (path : string)
  | LibraryError (msg : string)
  | TransportError (msg : string).

Inductive node :=
  | File (data : bytes)
  | Dir.

Abbreviation filesystem := (gmap string node).

(** What the handlers hand to the transport: [reply_text] with its
    optional inline button (label, url) and [reply_document]. *)
Inductive outgoing :=
  | ReplyText (text : string) (button : option (string * string))
  | ReplyDocument (document : bytes) (filename caption : string).

Record world := World {
  w_fs : filesystem;          (* the files and directories on disk *)
  w_stdout : list string;     (* lines written by [print] *)
  w_outbox : list outgoing    (* calls made on the transport, in order *)
}.

Definition set_fs (f : filesystem -> filesystem) (w : world) : world :=
  {| w_fs := f (w_fs w); w_stdout := w_stdout w; w_outbox := w_outbox w |}.

(** ** The state and exception monad *)

Inductive outcome (A : Type) :=
  | Val (a : A)
  | Exn (e : exn).
Arguments Val {A} a.
Arguments Exn {A} e.

Definition M (A : Type) : Type := world -> outcome A * world.

Definition ret {A} (a : A) : M A := fun w => (Val a, w).
Definition raise {A} (e : exn) : M A := fun w => (Exn e, w).
Definition bind {A B} (m : M A) (k : A -> M B) : M B :=
  fun w => match m w with
           | (Val a, w') => k a w'
           | (Exn e, w') => (Exn e, w')
           end.

Notation "x <- m ;; k" := (bind m (fun x => k))
  (at level 100, m at next level, right associativity, only parsing).
Notation "m ;; k" := (bind m (fun _ => k))
  (at level 100, right associativity, only parsing).

(** [try: body  except Exception as e: handler(e)] *)
Definition try_except {A} (body : M A) (handler : exn -> M A) : M A :=
  fun w => match body w with
           | (Val a, w') => (Val a, w')
           | (Exn e, w') => handler e w'
           end.

(** [try: body  except: pass] *)
Definition try_pass (body : M unit) : M unit := try_except body (fun _ => ret tt).

(** [try: body  finally: final]: [final] runs on both exits; the body's
    outcome is kept unless [final] itself raises. *)
Definition try_finally {A} (body : M A) (final : M unit) : M A :=
  fun w => match body w with
           | (r, w') => match final w' with
                        | (Val _, w'') => (r, w'')
                        | (Exn e, w'') => (Exn e, w'')
                        end
           end.

(** [for x in l: body x], threading the loop's local variables [acc]. *)
Fixpoint for_each {A S} (l : list A) (body : A -> S -> M S) (acc : S) : M S :=
  match l with
  | [] => ret acc
  | x :: l' => acc' <- body x acc ;; for_each l' body acc'
  end.

(** [for x in l: body x] inside a [with] block: when a turn raises, the
    loop ends there and hands the exception, with the loop's local
    variables as they were, to the exit of the block. *)
Fixpoint for_each_keep {A S} (l : list A) (body : A -> S -> M S) (acc : S)
  : M (S * option exn) :=
  match l with
  | [] => ret (acc, None)
  | x :: l' =>
      fun w => match body x acc w with
               | (Val acc', w') => for_each_keep l' body acc' w'
               | (Exn e, w') => (Val (acc, Some e), w')
               end
  end.

(** ** Filesystem primitives *)

Definition is_file (fs : filesystem) (p : string) : bool :=
  match fs !! p with Some (File _) => true | _ => false end.

(** [os.path.isfile(p)] *)
Definition isfile (p : string) : M bool := fun w => (Val (is_file (w_fs w) p), w).

(** The components that name no directory of their own on the way
    down a normal path: the empty one before a leading separator, and
    [.] and [..], which [os.path.normpath] leaves at the front only,
    where they name directories that exist. *)
Definition implicit_dir (c : string) : bool :=
  String.eqb c "" || String.eqb c "." || String.eqb c "..".

(** The directories on the way to [d], outermost first, [d] itself
    last: [a], [a/b], [a/b/c] for [a/b/c]. *)
Fixpoint ancestors_from (pre : string) (comps : list string) : list string :=
  match comps with
  | [] => []
  | c :: cs =>
      (if implicit_dir c then [] else [pre +:+ c]) ++ ancestors_from (pre +:+ c +:+ "/") cs
  end.
Definition ancestors (d : string) : list string :=
  ancestors_from "" (Str.split Path.sep d).

(** [os.makedirs(d, exist_ok=True)] on a normal path: the directories
    on the way to [d] that are missing are made, from the top, those
    that exist are left alone; [mkdir] below a regular file raises
    [NotADirectoryError] with the path it was to make, and a regular
    file at [d] itself is [FileExistsError]. *)
Fixpoint makedirs_from (pre : string) (comps : list string) : M unit :=
  match comps with
  | [] => ret tt
  | c :: cs =>
      (if implicit_dir c then ret tt
       else fun w =>
         match w_fs w !! (pre +:+ c) with
         | Some Dir => (Val tt, w)
         | Some (File _) =>
             (Exn (match cs with
                   | [] => FileExistsError (pre +:+ c)
                   | c' :: _ => NotADirectoryError (pre +:+ c +:+ "/" +:+ c')
                   end), w)
         | None => (Val tt, set_fs (insert (pre +:+ c) Dir) w)
         end) ;;
      makedirs_from (pre +:+ c +:+ "/") cs
  end.
Definition makedirs (d : string) : M unit :=
  makedirs_from "" (Str.split Path.sep d).

(** [open(p, "rb").read()] *)
Definition read_file (p : string) : M bytes :=
  fun w => match w_fs w !! p with
           | Some (File b) => (Val b, w)
           | Some Dir => (Exn (IsADirectoryError p), w)
           | None => (Exn (FileNotFoundError p), w)
           end.

(** Opening [p] for writing and storing [data]: creates or truncates a
    regular file, refuses a directory. *)
Definition write_file (p : string) (data : bytes) : M unit :=
  fun w => match w_fs w !! p with
           | Some Dir => (Exn (IsADirectoryError p), w)
           | _ => (Val tt, set_fs (insert p (File data)) w)
           end.

(** [os.remove(p)] *)
Definition os_remove (p : string) : M unit :=
  fun w => match w_fs w !! p with
           | Some (File _) => (Val tt, set_fs (delete p) w)
           | Some Dir => (Exn (IsADirectoryError p), w)
           | None => (Exn (FileNotFoundError p), w)
           end.

(** [print(line)] *)
Definition print (line : string) : M unit :=
  fun w => (Val tt, {| w_fs := w_fs w; w_stdout := w_stdout w ++ [line]; w_outbox := w_outbox w |}).

(** ** [glob.glob] *)

(** The names directly under directory [d]: the keys [d/n] with [n]
    non-empty and free of separators. *)
Definition child_name (d k : string) : option string :=
  let pre := if String.eqb d "" || Str.endswith d "/" then d else d +:+ "/" in
  if Str.startswith k pre then
    let n := Str.drop (String.length pre) k in
    if String.eqb n "" || Str.contains Path.sep n then None else Some n
  else None.

Definition listdir (fs : filesystem) (d : string) : list string :=
  omap (child_name d) (elements (dom fs)).

(** [fnmatch.fnmatchcase(name, pat)] for patterns made of literal
    characters, [*] and [?] (the program's patterns have no bracket
    expression). *)
Fixpoint fnmatch (pat name : string) : bool :=
  match pat with
  | EmptyString => String.eqb name ""
  | String c pat' =>
      if Ascii.eqb c "*" then
        (fix star (n : string) : bool :=
           fnmatch pat' n || match n with
                             | EmptyString => false
                             | String _ n' => star n'
                             end) name
      else match name with
           | EmptyString => false
           | String a name' =>
               (Ascii.eqb c "?" || Ascii.eqb a c) && fnmatch pat' name'
           end
  end.

(** [glob.glob(pathname)] with a literal directory part: the entries of
    that directory matching the last component, hidden names (leading
    dot) left out unless the pattern itself starts with a dot. *)
Definition glob (fs : filesystem) (pathname : string) : list string :=
  let '(dirname, basename) := Path.split pathname in
  let names := listdir fs dirname in
  let names := if Str.startswith basename "." then names
               else filter (fun n => Str.startswith n "." = false) names in
  map (Path.join dirname) (filter (fun n => fnmatch basename n = true) names).

(** [sorted(xs, key=lambda p: p.lower())] *)
Definition le_lower (a b : string) : Prop := String.le (Str.lower a) (Str.lower b).
Global Instance le_lower_dec : RelDecision le_lower.
Proof. intros a b. unfold le_lower. apply _. Defined.
Definition sorted_lower (xs : list string) : list string := merge_sort le_lower xs.

(** [set(files)] then iteration: the distinct elements, in an order the
    program does not control. *)
Definition set_iter (files : list string) : list string :=
  elements (list_to_set files : gset string).

(** ** Module level: configuration read at start *)

Record config := Config {
  BOT_TOKEN : string;
  STOXEYE_URL : string;
  CSV_TARGET : string
}.

Definition nl : string := String "010"%char EmptyString.

Section Startup.

(** [os.path.normpath] and [os.path.expanduser] are pure string
    functions that never raise; what they return is not needed here. *)
Variable normpath : string -> string.
Variable expanduser : string -> string.

(** [os.getenv(key, default)] over the environment as [load_dotenv]
    leaves it. *)
Definition getenv (env : gmap string string) (key default : string) : string :=
  match env !! key with Some v => v | None => default end.

(** Lines 16 to 25: the three settings, then the token check. *)
Definition load_config (env : gmap string string) : outcome config :=
  let token := Str.strip (getenv env "BOT_TOKEN" "") in
  let url := Str.strip (getenv env "STOXEYE_URL" "https://your-stoxeye-site.example") in
  let target := getenv env "CSV_DIR" "sample_portfolios" in
  let target :=
    Str.strip_chars (Ascii.eqb "'"%char)
      (Str.strip_chars (Ascii.eqb "034"%char) (Str.strip target)) in
  let target := normpath (expanduser target) in
  if String.eqb token "" then
    Exn (RuntimeError "Set BOT_TOKEN in .env with your BotFather token.")
  else Val {| BOT_TOKEN := token; STOXEYE_URL := url; CSV_TARGET := target |}.

(** Running the script: the module body, then [main()] under the
    [__name__] guard, which builds the application and polls. *)
Inductive process :=
  | Died (e : exn)
  | Polling (cfg : config).

Definition run_script (env : gmap string string) : process :=
  match load_config env with
  | Exn e => Died e
  | Val cfg => Polling cfg
  end.

End Startup.

(** ** A concrete instance of the collaborators

    Used to run the program on explicit filesystems: a spreadsheet is a
    file whose bytes start with [XLS:], its frame is the rest; the archive
    encoder lists its members between braces; nothing reaches the disk
    while the archive is open; zipfile takes every file. *)

Module Demo.

Definition read_excel (b : bytes) : exn + string :=
  if Str.startswith b "XLS:" then inr (Str.drop 4 b)
  else inl (LibraryError "not a spreadsheet").

Definition to_csv (df : string) : bytes := df.

Definition zip_encode (members : list (string * bytes)) : bytes :=
  "PK{" +:+ foldr (fun '(n, d) acc => n +:+ "=" +:+ d +:+ ";" +:+ acc) "}" members.

Definition zip_partial (members : list (string * bytes)) : bytes := "".

(** Every file is recent enough for zipfile. *)
Definition accepts : string -> option exn := fun _ => None.

(** [str(e)] for the exceptions met on the filesystems below, whose
    paths [repr] leaves as they are between its quotes. *)
Definition exn_str (e : exn) : string :=
  match e with
  | RuntimeError m | ValueError m | LibraryError m | TransportError m => m
  | FileExistsError p => "[Errno 17] File exists: '" +:+ p +:+ "'"
  | FileNotFoundError p => "[Errno 2] No such file or directory: '" +:+ p +:+ "'"
  | IsADirectoryError p => "[Errno 21] Is a directory: '" +:+ p +:+ "'"
  | NotADirectoryError p => "[Errno 20] Not a directory: '" +:+ p +:+ "'"
  end.

(** A transport that always delivers, and one that raises on every
    document. *)
Definition delivers : list outgoing -> outgoing -> option exn := fun _ _ => None.
Definition drops_documents : list outgoing -> outgoing -> option exn :=
  fun _ msg => match msg with
               | ReplyDocument _ _ _ => Some (TransportError "timed out")
               | ReplyText _ _ => None
               end.

Definition tempdir : string := "/tmp".

Definition cfg (target : string) : config :=
  {| BOT_TOKEN := "123:abc"; STOXEYE_URL := "https://stoxeye.example"; CSV_TARGET := target |}.

Definition boot (fs : filesystem) : world :=
  {| w_fs := fs; w_stdout := []; w_outbox := [] |}.

(** A source directory with a text file, two spreadsheets of one stem,
    a corrupt spreadsheet, files whose extension is in upper or mixed
    case, a hidden file and an unrelated one. *)
Definition fs_data : filesystem :=
  list_to_map
    [ ("data", Dir);
      ("data/a.csv", File "x,y");
      ("data/b.xlsx", File "XLS:1,2");
      ("data/bad.xls", File "junk");
      ("data/s.xls", File "XLS:old");
      ("data/s.xlsx", File "XLS:new");
      ("data/t.CSV", File "u,v");
      ("data/Q.XLSX", File "XLS:3,4");
      ("data/r.Csv", File "m,n");
      ("data/v.XLS", File "XLS:5,6");
      ("data/.h.csv", File "h");
      ("data/notes.txt", File "hello") ].

(** The spec's end-to-end directory. *)
Definition fs_ports : filesystem :=
  list_to_map
    [ ("ports", Dir);
      ("ports/port1.csv", File "a,b");
      ("ports/port2.xlsx", File "XLS:c,d") ].

(** The same, with a directory sitting at the archive's scratch path. *)
Definition fs_ports_blocked : filesystem :=
  <["/tmp/test_portfolios.zip" := Dir]> fs_ports.

Definition w_data : world := boot fs_data.
Definition w_ports : world := boot fs_ports.
Definition w_ports_blocked : world := boot fs_ports_blocked.

Definition not_a_spreadsheet : exn := LibraryError "not a spreadsheet".

End Demo.

(** ** More concrete filesystems *)

Module Cases.

(** A source directory in which the scan also matches a sub-directory. *)
Definition fs_nested : filesystem :=
  list_to_map
    [ ("box", Dir);
      ("box/a.csv", File "x,y");
      ("box/sub.csv", Dir);
      ("box/z.csv", File "p,q") ].

Definition w_nested : world := Demo.boot fs_nested.

(** zipfile while it packs [Demo.fs_data] with [data/t.CSV] last
    modified before 1980. *)
Definition refuses_old (p : string) : option exn :=
  if String.eqb p "data/t.CSV"
  then Some (ValueError "ZIP does not support timestamps before 1980")
  else None.

(** An environment whose [CSV_DIR] was written between double quotes,
    with white space around them. *)
Definition env_quoted : gmap string string :=
  list_to_map
    [ ("BOT_TOKEN", " 123:abc ");
      ("CSV_DIR", "  " +:+ String "034"%char "C:/my data" +:+ String "034"%char " ") ].

End Cases.

(** ** The program *)

Section Bot.

(** pandas: [read_excel(bytes, sheet_name=0)] yields a frame or raises;
    [to_csv(index=False)] serialises a frame. *)
Variable dataframe : Type.
Variable read_excel : bytes -> exn + dataframe.
Variable to_csv : dataframe -> bytes.

(** [str(e)], as an f-string interpolates an exception: the message of
    a library error, and for an [OSError] the interpreter's
    [[Errno n] reason: 'path']. *)
Variable exn_str : exn -> string.

(** zipfile: the bytes of a deflated archive holding the given
    (arcname, data) members in order, and the bytes that have reached
    the disk while the archive is still open. *)
Variable zip_encode : list (string * bytes) -> bytes.
Variable zip_partial : list (string * bytes) -> bytes.

(** zipfile does not take every regular file: [zf.write] raises
    [ValueError] for one whose modification time is before 1980, before
    it reads a byte.  Time stamps are not part of the filesystem here, so
    the exception [zf.write] raises for the file at a path, if any, while
    one archive is packed, is a parameter too. *)
Variable zip_refuses : string -> option exn.

(** The transport: given the calls made so far and the next one, it
    delivers ([None]) or raises. *)
Variable transport : list outgoing -> outgoing -> option exn.

(** [tempfile.gettempdir()] *)
Variable tempdir : string.

Variable cfg : config.

Definition WELCOME_TEXT : string :=
  "👋 Hey! Here’s the StoxEye link and test CSV files." +:+ nl +:+ nl +:+
  "Open StoxEye, upload a CSV, and play with the demo portfolio.".

(** *** File helpers *)

Definition _list_from_dir (directory : string) : M (list string) :=
  makedirs directory ;;
  let patterns := [ Path.join directory "*.csv";
                    Path.join directory "*.CSV";
                    Path.join directory "*.xlsx";
                    Path.join directory "*.xls" ] in
  files <- for_each patterns
             (fun p files => fun w => (Val (files ++ glob (w_fs w) p), w)) [] ;;
  ret (sorted_lower (set_iter files)).

Definition find_sources : M (list string) :=
  b <- isfile (CSV_TARGET cfg) ;;
  if b then ret [CSV_TARGET cfg]
  else _list_from_dir (CSV_TARGET cfg).

Definition pd_read_excel (excel_path : string) : M dataframe :=
  data <- read_file excel_path ;;
  match read_excel data with
  | inl e => raise e
  | inr df => ret df
  end.

Definition convert_excel_to_csv (excel_path : string) : M string :=
  df <- pd_read_excel excel_path ;;
  let out_path := Path.join tempdir (Path.stem excel_path +:+ ".csv") in
  write_file out_path (to_csv df) ;;
  ret out_path.

Definition warn_line (p : string) (e : exn) : string :=
  "[WARN] Excel->CSV failed for " +:+ p +:+ ": " +:+ exn_str e.

(** One turn of the loop of [prepare_files]; [pairs] and [temps] are
    the two lists it appends to. *)
Definition prepare_step (p : string) (acc : list (string * string) * list string)
  : M (list (string * string) * list string) :=
  let '(pairs, temps) := acc in
  let lower := Str.lower p in
  if Str.endswith lower ".csv" then
    ret (pairs ++ [(p, Path.name p)], temps)
  else if Str.endswith_any lower [".xlsx"; ".xls"] then
    try_except
      (cp <- convert_excel_to_csv p ;;
       ret (pairs ++ [(cp, Path.stem p +:+ "_converted.csv")], temps ++ [cp]))
      (fun e =>
         print (warn_line p e) ;;
         ret (pairs ++ [(p, Path.name p)], temps))
  else ret (pairs, temps).

(** The loop of [prepare_files] over given paths. *)
Definition prepare (src : list string) : M (list (string * string) * list string) :=
  for_each src prepare_step ([], []).

Definition prepare_files : M (list (string * string) * list string) :=
  src <- find_sources ;;
  prepare src.

Definition zip_path : string := Path.join tempdir "test_portfolios.zip".

(** One turn of the loop of [zip_pairs]; [members] is what the open
    archive holds so far. *)
Definition zip_step (pair : string * string) (members : list (string * bytes))
  : M (list (string * bytes)) :=
  let '(path, name) := pair in
  b <- isfile path ;;
  if b then
    match zip_refuses path with
    | Some e => raise e
    | None =>
        data <- read_file path ;;
        let members' := members ++ [(name, data)] in
        write_file zip_path (zip_partial members') ;;
        ret members'
    end
  else ret members.

(** [ZipFile(zip_path, "w", ZIP_DEFLATED)] creates or truncates the
    file; leaving the [with] block closes the archive, which writes its
    end records over the members added so far, whether the block ended
    or raised; an exception of the block is raised again after that. *)
Definition zip_pairs (pairs : list (string * string)) : M string :=
  write_file zip_path (zip_partial []) ;;
  r <- for_each_keep pairs zip_step [] ;;
  let '(members, failure) := r in
  write_file zip_path (zip_encode members) ;;
  match failure with
  | Some e => raise e
  | None => ret zip_path
  end.

(** *** Handlers *)

Definition send (msg : outgoing) : M unit :=
  fun w =>
    let w' := {| w_fs := w_fs w; w_stdout := w_stdout w; w_outbox := w_outbox w ++ [msg] |} in
    match transport (w_outbox w) msg with
    | None => (Val tt, w')
    | Some e => (Exn e, w')
    end.

Definition reply_text (text : string) : M unit := send (ReplyText text None).

(** [with open(path, "rb") as f: reply_document(document=f, ...)] *)
Definition reply_document_from (path filename caption : string) : M unit :=
  data <- read_file path ;;
  send (ReplyDocument data filename caption).

Definition link_message : outgoing :=
  ReplyText (WELCOME_TEXT +:+ nl +:+ nl +:+ "🔗 " +:+ STOXEYE_URL cfg)
    (Some ("🚀 Open StoxEye", STOXEYE_URL cfg)).

Definition send_link : M unit := send link_message.

Definition target_hint : M string :=
  b <- isfile (CSV_TARGET cfg) ;;
  ret (if b then CSV_TARGET cfg else "folder: " +:+ CSV_TARGET cfg).

Definition no_files_text (hint : string) : string :=
  "⚠️ No CSV/Excel files found at " +:+ hint.

Definition remove_temps (temps : list string) : M unit :=
  for_each temps (fun t _ => try_pass (os_remove t)) tt.

Definition send_zip : M unit :=
  send_link ;;
  r <- prepare_files ;;
  let '(pairs, temps) := r in
  hint <- target_hint ;;
  match pairs with
  | [] => reply_text (no_files_text hint)
  | _ :: _ =>
      zp <- zip_pairs pairs ;;
      try_finally
        (reply_document_from zp "test_portfolios.zip"
           "📦 All sample portfolios (CSV). Import any one into StoxEye.")
        (try_pass (os_remove zp) ;;
         remove_temps temps)
  end.

Definition send_files : M unit :=
  send_link ;;
  r <- prepare_files ;;
  let '(pairs, temps) := r in
  hint <- target_hint ;;
  match pairs with
  | [] => reply_text (no_files_text hint)
  | _ :: _ =>
      try_finally
        (for_each pairs
           (fun '(path, name) _ =>
              reply_document_from path name ("📄 " +:+ name +:+ " — import into StoxEye."))
           tt)
        (remove_temps temps)
  end.

Definition start_cmd : M unit := send_zip.

Definition on_text (message_text : string) : M unit :=
  let text := Str.lower (Str.strip message_text) in
  if String.eqb text "hi" then send_zip
  else reply_text ("Say 'hi' or use /start for link + ZIP." +:+ nl +:+
                   "Commands: /zip (one ZIP) · /files (send individually)").

(** *** What [prepare] does, read off a fixed filesystem

    The loop only reads paths it classifies as spreadsheets and only
    writes paths ending in [.csv]; so what each turn does can be told
    from the filesystem the loop started on. *)

(** The outcome of [convert_excel_to_csv p] on filesystem [fs]: the
    exception it raises, or the path and bytes it writes. *)
Definition convert_result (fs : filesystem) (p : string) : exn + (string * bytes) :=
  match fs !! p with
  | Some (File data) =>
      match read_excel data with
      | inl e => inl e
      | inr df =>
          let out_path := Path.join tempdir (Path.stem p +:+ ".csv") in
          match fs !! out_path with
          | Some Dir => inl (IsADirectoryError out_path)
          | _ => inr (out_path, to_csv df)
          end
      end
  | Some Dir => inl (IsADirectoryError p)
  | None => inl (FileNotFoundError p)
  end.

Record turn := Turn {
  t_pairs : list (string * string);
  t_temps : list string;
  t_writes : list (string * bytes);
  t_lines : list string
}.

Definition plan_step (fs : filesystem) (p : string) : turn :=
  let lower := Str.lower p in
  if Str.endswith lower ".csv" then Turn [(p, Path.name p)] [] [] []
  else if Str.endswith_any lower [".xlsx"; ".xls"] then
    match convert_result fs p with
    | inr (cp, data) => Turn [(cp, Path.stem p +:+ "_converted.csv")] [cp] [(cp, data)] []
    | inl e => Turn [(p, Path.name p)] [] [] [warn_line p e]
    end
  else Turn [] [] [] [].

Definition plan_pairs (fs : filesystem) (src : list string) : list (string * string) :=
  flat_map (fun p => t_pairs (plan_step fs p)) src.
Definition plan_temps (fs : filesystem) (src : list string) : list string :=
  flat_map (fun p => t_temps (plan_step fs p)) src.
Definition plan_writes (fs : filesystem) (src : list string) : list (string * bytes) :=
  flat_map (fun p => t_writes (plan_step fs p)) src.
Definition plan_lines (fs : filesystem) (src : list string) : list string :=
  flat_map (fun p => t_lines (plan_step fs p)) src.

Definition apply_writes (ws : list (string * bytes)) (fs : filesystem) : filesystem :=
  foldl (fun fs w => <[w.1 := File w.2]> fs) fs ws.

(** [fs'] differs from [fs] only by regular files at paths ending in
    [.csv]. *)
Definition stable (fs fs' : filesystem) : Prop :=
  (forall p, Str.endswith (Str.lower p) ".csv" = false -> fs' !! p = fs !! p) /\
  (forall p, fs' !! p = Some Dir <-> fs !! p = Some Dir).

(** *** What [pack] is to put in the archive, in the spec's words: the
    bytes of each entry whose effective path is an existing file, under
    the entry's display name; the other entries are skipped. *)
Definition members_of (fs : filesystem) (pairs : list (string * string)) : list (string * bytes) :=
  omap (fun '(path, name) => match fs !! path with
                             | Some (File data) => Some (name, data)
                             | _ => None
                             end) pairs.

(** zipfile takes every entry that is a regular file on [fs]. *)
Definition accepted (fs : filesystem) (pairs : list (string * string)) : Prop :=
  Forall (fun e => is_file fs e.1 = true -> zip_refuses e.1 = None) pairs.

(** The world after one more call on the transport. *)
Definition sent (msg : outgoing) (w : world) : world :=
  {| w_fs := w_fs w; w_stdout := w_stdout w; w_outbox := w_outbox w ++ [msg] |}.

(** What the loop of [os.remove] calls, each under [try/except: pass],
    leaves on disk. *)
Definition removed (temps : list string) (fs : filesystem) : filesystem :=
  foldl (fun fs t => if is_file fs t then delete t fs else fs) fs temps.

(** The world after the given writes and printed lines. *)
Definition advance (ws : list (string * bytes)) (lines : list string) (w : world) : world :=
  {| w_fs := apply_writes ws (w_fs w);
     w_stdout := w_stdout w ++ lines;
     w_outbox := w_outbox w |}.

(** *** What the handlers are to transmit *)

(** The caption [send_files] puts under a document. *)
Definition file_caption (name : string) : string :=
  "📄 " +:+ name +:+ " — import into StoxEye.".

Definition zip_caption : string :=
  "📦 All sample portfolios (CSV). Import any one into StoxEye.".

(** One document per entry that is a regular file, in order. *)
Definition documents_of (fs : filesystem) (pairs : list (string * string)) : list outgoing :=
  map (fun m => ReplyDocument m.2 m.1 (file_caption m.1)) (members_of fs pairs).

(** The exception [open(path, "rb")] raises on [fs]. *)
Definition open_error (fs : filesystem) (path : string) : exn :=
  match fs !! path with
  | Some Dir => IsADirectoryError path
  | _ => FileNotFoundError path
  end.

Definition help_text : string :=
  "Say 'hi' or use /start for link + ZIP." +:+ nl +:+
  "Commands: /zip (one ZIP) · /files (send individually)".

(** [on_text] on an update whose message text may be absent:
    [(update.message.text or "")]. *)
Definition on_message (text : option string) : M unit :=
  on_text (match text with Some t => t | None => "" end).

(** The world with the given calls added to the outbox. *)
Definition sent_all (msgs : list outgoing) (w : world) : world :=
  {| w_fs := w_fs w; w_stdout := w_stdout w; w_outbox := w_outbox w ++ msgs |}.

(** *** The directory scan, in the code's terms *)

(** The four patterns [_list_from_dir] hands to [glob.glob]. *)
Definition patterns_of (directory : string) : list string :=
  [ Path.join directory "*.csv"; Path.join directory "*.CSV";
    Path.join directory "*.xlsx"; Path.join directory "*.xls" ].

(** A pattern without [*] and [?]. *)
Definition literal (s : string) : Prop :=
  Str.contains "*"%char s = false /\ Str.contains "?"%char s = false.

(** [glob.has_magic]: the path holds one of the characters [*], [?] or
    the opening bracket. *)
Definition has_magic (s : string) : bool :=
  Str.contains "*"%char s || Str.contains "?"%char s || Str.contains "091"%char s.

(** A directory path as [os.path.normpath] leaves it, the root apart:
    not empty, no trailing separator. *)
Definition normal_dir (d : string) : Prop :=
  d <> "" /\ Str.endswith d "/" = false.

(** The four spellings the patterns end in. *)
Definition scanned_suffix (n : string) : bool :=
  Str.endswith n ".csv" || Str.endswith n ".CSV" ||
  Str.endswith n ".xlsx" || Str.endswith n ".xls".

(** *** Relations every step of a computation respects *)

(** [m] takes every world to a world related to it by [R]. *)
Definition respects (R : world -> world -> Prop) {A} (m : M A) : Prop :=
  forall w, R w (m w).2.

(** [m] returns only values satisfying [Q]. *)
Definition returns {A} (Q : A -> Prop) (m : M A) : Prop :=
  forall w a w', m w = (Val a, w') -> Q a.

(** A path of the form the conversion writes: a file directly in the
    scratch directory, named by a stem, which holds no separator, and
    [.csv]. *)
Definition scratch_csv (p : string) : Prop :=
  exists s, Str.contains Path.sep s = false /\ p = Path.join tempdir (s +:+ ".csv").

(** The paths no handler may change: all but the converted files in the
    scratch directory, the archive, and the directories on the way to
    the configured path. *)
Definition kept (p : string) : Prop :=
  ~ scratch_csv p /\ p <> zip_path /\ p ∉ ancestors (CSV_TARGET cfg).

(** The two worlds hold the same node at every kept path. *)
Definition same_kept (w w' : world) : Prop :=
  forall p, kept p -> w_fs w' !! p = w_fs w !! p.

(** The outbox of the second world extends that of the first. *)
Definition outbox_grows (w w' : world) : Prop :=
  exists more, w_outbox w' = w_outbox w ++ more.

(** What [send_zip] and [send_files] do once the link went out; each
    handler is [send_link] followed by its remainder. *)
Definition zip_after_link : M unit :=
  r <- prepare_files ;;
  let '(pairs, temps) := r in
  hint <- target_hint ;;
  match pairs with
  | [] => reply_text (no_files_text hint)
  | _ :: _ =>
      zp <- zip_pairs pairs ;;
      try_finally
        (reply_document_from zp "test_portfolios.zip"
           "📦 All sample portfolios (CSV). Import any one into StoxEye.")
        (try_pass (os_remove zp) ;;
         remove_temps temps)
  end.

Definition files_after_link : M unit :=
  r <- prepare_files ;;
  let '(pairs, temps) := r in
  hint <- target_hint ;;
  match pairs with
  | [] => reply_text (no_files_text hint)
  | _ :: _ =>
      try_finally
        (for_each pairs
           (fun '(path, name) _ =>
              reply_document_from path name ("📄 " +:+ name +:+ " — import into StoxEye."))
           tt)
        (remove_temps temps)
  end.

(** *** Stripping *)

(** Every character of [s] satisfies [f]. *)
Fixpoint all_chars (f : ascii -> bool) (s : string) : bool :=
  match s with
  | EmptyString => true
  | String c s' => f c && all_chars f s'
  end.

(** The characters on which the embedding's [lower] and [isspace] are
    Python's: code points below 128. *)
Definition is_ascii (c : ascii) : bool := (nat_of_ascii c <? 128)%nat.

(** [s] neither starts nor ends with a character [f] accepts. *)
Definition edge_free (f : ascii -> bool) (s : string) : Prop :=
  s = "" \/
  ((exists c r, s = String c r /\ f c = false) /\
   (exists c r, String.rev s = String c r /\ f c = false)).

Definition double_quote : ascii := "034"%char.
Definition single_quote : ascii := "'"%char.

(** ** Properties *)

(** *** Strings *)

Lemma str_app_nil (b : string) : "" +:+ b = b.
Proof. reflexivity. Qed.

Lemma str_app_cons (x : ascii) (a b : string) : String x a +:+ b = String x (a +:+ b).
Proof. reflexivity. Qed.

Ltac str_simpl := rewrite ?str_app_cons, ?str_app_nil.
Ltac str_simpl_in H := rewrite ?str_app_cons, ?str_app_nil in H.

Lemma str_app_assoc (a b c : string) : (a +:+ b) +:+ c = a +:+ (b +:+ c).
Proof. induction a as [|x a IH]; str_simpl; [reflexivity | now rewrite IH]. Qed.

Lemma str_app_length (a b : string) :
  String.length (a +:+ b) = String.length a + String.length b.
Proof. induction a as [|x a IH]; str_simpl; simpl; [reflexivity | now rewrite IH]. Qed.

Lemma endswith_nil (suf : string) : Str.endswith "" suf = String.eqb "" suf.
Proof. by destruct suf. Qed.

Lemma endswith_cons (c : ascii) (s suf : string) :
  Str.endswith (String c s) suf =
  if String.eqb (String c s) suf then true else Str.endswith s suf.
Proof. reflexivity. Qed.

Lemma endswith_spec (s suf : string) :
  Str.endswith s suf = true <-> exists pre, s = pre +:+ suf.
Proof.
  induction s as [|c s IH].
  - rewrite endswith_nil.
    destruct (String.eqb_spec "" suf) as [<-|Hne]; split; intros H; try done.
    + by exists "".
    + destruct H as [[|x pre] H]; str_simpl_in H; [done | discriminate].
  - rewrite endswith_cons.
    destruct (String.eqb_spec (String c s) suf) as [<-|Hne]; split; intros H; try done.
    + by exists "".
    + apply IH in H as [pre ->]. by exists (String c pre).
    + destruct H as [[|x pre] H]; str_simpl_in H; [done|].
      injection H as -> ->. apply IH. by exists pre.
Qed.

Lemma endswith_app (a b : string) : Str.endswith (a +:+ b) b = true.
Proof. apply endswith_spec. by exists a. Qed.

Lemma lower_app (a b : string) : Str.lower (a +:+ b) = Str.lower a +:+ Str.lower b.
Proof. induction a as [|x a IH]; str_simpl; simpl; [reflexivity | now rewrite IH]. Qed.

(** Two suffixes of one string: the shorter is a suffix of the longer. *)
Lemma suffix_of_suffix (x a y b : string) :
  x +:+ a = y +:+ b -> String.length a <= String.length b -> exists z, b = z +:+ a.
Proof.
  revert y. induction x as [|c x IH]; intros y H Hlen; str_simpl_in H.
  - destruct y as [|d y]; str_simpl_in H.
    + exists "". by subst.
    + subst a. simpl in Hlen. rewrite str_app_length in Hlen. lia.
  - destruct y as [|d y]; str_simpl_in H.
    + exists (String c x). by subst.
    + injection H as _ H. by apply (IH y).
Qed.

Lemma join_suffix (a b : string) : exists pre, Path.join a b = pre +:+ b.
Proof.
  unfold Path.join. destruct (Str.startswith b "/").
  - by exists "".
  - destruct (_ || _).
    + by exists a.
    + exists (a +:+ "/"). by rewrite str_app_assoc.
Qed.

(** The path [convert_excel_to_csv] writes always ends in [.csv]. *)
Lemma out_path_csv (p : string) :
  Str.endswith (Str.lower (Path.join tempdir (Path.stem p +:+ ".csv"))) ".csv" = true.
Proof.
  destruct (join_suffix tempdir (Path.stem p +:+ ".csv")) as [pre ->].
  rewrite <- str_app_assoc, lower_app. apply endswith_app.
Qed.

(** A spreadsheet extension excludes the [.csv] one. *)
Lemma excel_not_csv (s : string) :
  Str.endswith_any s [".xlsx"; ".xls"] = true -> Str.endswith s ".csv" = false.
Proof.
  unfold Str.endswith_any. simpl. rewrite orb_false_r. intros H.
  destruct (Str.endswith s ".csv") eqn:Hc; [|done].
  apply endswith_spec in Hc as [y Hy].
  apply orb_true_iff in H as [H|H]; apply endswith_spec in H as [x Hx]; rewrite Hx in Hy.
  - symmetry in Hy. apply suffix_of_suffix in Hy as [z Hz]; [|simpl; lia].
    repeat (destruct z as [|? z]; str_simpl_in Hz; [discriminate|injection Hz as _ Hz]).
    destruct z; discriminate.
  - apply suffix_of_suffix in Hy as [z Hz]; [|simpl; lia].
    repeat (destruct z as [|? z]; str_simpl_in Hz; [discriminate|injection Hz as _ Hz]).
    destruct z; discriminate.
Qed.

(** *** The monad and the loop *)

Lemma for_each_app {A S} (l1 l2 : list A) (body : A -> S -> M S) (acc : S) (w : world) :
  for_each (l1 ++ l2) body acc w =
  match for_each l1 body acc w with
  | (Val acc', w') => for_each l2 body acc' w'
  | (Exn e, w') => (Exn e, w')
  end.
Proof.
  revert acc w. induction l1 as [|x l1 IH]; intros acc w; simpl; [done|].
  unfold bind. destruct (body x acc w) as [[acc'|e] w']; [apply IH | done].
Qed.

Lemma for_each_cons {A S} (x : A) (l : list A) (body : A -> S -> M S) (acc : S) (w : world) :
  for_each (x :: l) body acc w =
  match body x acc w with
  | (Val acc', w') => for_each l body acc' w'
  | (Exn e, w') => (Exn e, w')
  end.
Proof. reflexivity. Qed.

Lemma advance_nil (w : world) : advance [] [] w = w.
Proof. destruct w. unfold advance; simpl. by rewrite app_nil_r. Qed.

Lemma advance_advance ws1 l1 ws2 l2 (w : world) :
  advance ws2 l2 (advance ws1 l1 w) = advance (ws1 ++ ws2) (l1 ++ l2) w.
Proof.
  unfold advance, apply_writes; simpl. by rewrite foldl_app, <- app_assoc.
Qed.

(** *** Filesystems that differ only by written [.csv] files *)

Lemma stable_refl (fs : filesystem) : stable fs fs.
Proof. by split. Qed.

Lemma stable_insert (fs0 fs : filesystem) (out : string) (data : bytes) :
  Str.endswith (Str.lower out) ".csv" = true ->
  fs0 !! out <> Some Dir ->
  stable fs0 fs -> stable fs0 (<[out := File data]> fs).
Proof.
  intros Hcsv Hnd [H D]. split; intros p.
  - intros Hp. rewrite lookup_insert_ne; [by apply H | congruence].
  - destruct (decide (out = p)) as [<-|Hne].
    + rewrite lookup_insert_eq. split; [done | by intros ?].
    + rewrite lookup_insert_ne by done. apply D.
Qed.

Lemma convert_result_stable (fs0 fs : filesystem) (p : string) :
  Str.endswith (Str.lower p) ".csv" = false ->
  stable fs0 fs -> convert_result fs p = convert_result fs0 p.
Proof.
  intros Hp [H D]. unfold convert_result. rewrite (H p Hp).
  destruct (fs0 !! p) as [[data|]|]; [|done..].
  destruct (read_excel data) as [e|df]; [done|].
  set (out := Path.join tempdir (Path.stem p +:+ ".csv")).
  pose proof (D out) as Dout.
  destruct (fs !! out) as [[?|]|], (fs0 !! out) as [[?|]|]; try done;
    (by destruct Dout as [Da Db]; (discriminate Da || discriminate Db)).
Qed.

Lemma convert_result_ok (fs : filesystem) (p cp : string) (data : bytes) :
  convert_result fs p = inr (cp, data) ->
  cp = Path.join tempdir (Path.stem p +:+ ".csv") /\ fs !! cp <> Some Dir /\
  exists raw df, fs !! p = Some (File raw) /\ read_excel raw = inr df /\ data = to_csv df.
Proof.
  unfold convert_result. intros H.
  destruct (fs !! p) as [[raw|]|] eqn:Hp; [|done..].
  destruct (read_excel raw) as [e|df] eqn:Hr; [done|].
  set (out := Path.join tempdir (Path.stem p +:+ ".csv")) in *.
  destruct (fs !! out) as [[?|]|] eqn:Ho; try done;
    injection H as <- <-; (split; [done|]); (split; [congruence|]); by exists raw, df.
Qed.

(** *** [convert_excel_to_csv] and one turn of the loop *)

Lemma convert_excel_to_csv_run (p : string) (w : world) :
  convert_excel_to_csv p w =
  match convert_result (w_fs w) p with
  | inl e => (Exn e, w)
  | inr (cp, data) => (Val cp, set_fs (insert cp (File data)) w)
  end.
Proof.
  unfold convert_excel_to_csv, pd_read_excel, convert_result, bind, read_file.
  destruct (w_fs w !! p) as [[raw|]|]; [|done..].
  destruct (read_excel raw) as [e|df]; [done|].
  unfold ret, write_file.
  by destruct (w_fs w !! _) as [[?|]|].
Qed.

Lemma prepare_step_run (fs0 : filesystem) (p : string) pairs temps (w : world) :
  stable fs0 (w_fs w) ->
  prepare_step p (pairs, temps) w =
  (Val (pairs ++ t_pairs (plan_step fs0 p), temps ++ t_temps (plan_step fs0 p)),
   advance (t_writes (plan_step fs0 p)) (t_lines (plan_step fs0 p)) w).
Proof.
  intros Hst. unfold prepare_step, plan_step.
  destruct (Str.endswith (Str.lower p) ".csv") eqn:Hcsv.
  { simpl. unfold ret. by rewrite advance_nil, app_nil_r. }
  destruct (Str.endswith_any (Str.lower p) [".xlsx"; ".xls"]) eqn:Hx.
  2:{ simpl. unfold ret. by rewrite advance_nil, !app_nil_r. }
  unfold try_except, bind. rewrite convert_excel_to_csv_run.
  rewrite (convert_result_stable fs0 _ p Hcsv Hst).
  destruct (convert_result fs0 p) as [e|[cp data]]; simpl.
  - unfold print, ret, advance; simpl. by rewrite app_nil_r.
  - unfold ret, advance, set_fs; simpl. by rewrite app_nil_r.
Qed.

Lemma plan_step_stable (fs0 fs : filesystem) (p : string) :
  stable fs0 fs -> stable fs0 (apply_writes (t_writes (plan_step fs0 p)) fs).
Proof.
  intros Hst. unfold plan_step.
  destruct (Str.endswith (Str.lower p) ".csv"); [done|].
  destruct (Str.endswith_any _ _); [|done].
  destruct (convert_result fs0 p) as [e|[cp data]] eqn:Hc; [done|].
  apply convert_result_ok in Hc as (-> & Hnd & _). simpl.
  apply stable_insert; [apply out_path_csv | done | done].
Qed.

(** The loop of [prepare_files] never raises, and what it returns and
    writes is the plan read off any filesystem it is stable for. *)
Lemma prepare_loop_run (fs0 : filesystem) (src : list string) pairs temps (w : world) :
  stable fs0 (w_fs w) ->
  for_each src prepare_step (pairs, temps) w =
  (Val (pairs ++ plan_pairs fs0 src, temps ++ plan_temps fs0 src),
   advance (plan_writes fs0 src) (plan_lines fs0 src) w).
Proof.
  revert pairs temps w. induction src as [|p src IH]; intros pairs temps w Hst.
  - simpl. unfold ret. by rewrite advance_nil, !app_nil_r.
  - rewrite for_each_cons, (prepare_step_run fs0 p pairs temps w Hst).
    rewrite IH by (by apply plan_step_stable).
    rewrite advance_advance, <- !app_assoc. done.
Qed.

Lemma prepare_run (src : list string) (w : world) :
  prepare src w =
  (Val (plan_pairs (w_fs w) src, plan_temps (w_fs w) src),
   advance (plan_writes (w_fs w) src) (plan_lines (w_fs w) src) w).
Proof. unfold prepare. by rewrite (prepare_loop_run (w_fs w)) by apply stable_refl. Qed.

Lemma plan_writes_stable (fs0 fs : filesystem) (src : list string) :
  stable fs0 fs -> stable fs0 (apply_writes (plan_writes fs0 src) fs).
Proof.
  revert fs. induction src as [|p src IH]; intros fs Hst; [done|].
  unfold plan_writes, apply_writes in *. simpl. rewrite foldl_app.
  apply IH. by apply plan_step_stable.
Qed.

Lemma prepare_loop_from (src : list string) pairs temps (w : world) :
  for_each src prepare_step (pairs, temps) w =
  match prepare src w with
  | (Val (ps, ts), w') => (Val (pairs ++ ps, temps ++ ts), w')
  | (Exn e, w') => (Exn e, w')
  end.
Proof.
  rewrite prepare_run. by rewrite (prepare_loop_run (w_fs w)) by apply stable_refl.
Qed.

(** Splitting the input at any point splits the result. *)
Lemma prepare_app (l1 l2 : list string) (w : world) :
  prepare (l1 ++ l2) w =
  match prepare l1 w with
  | (Val (ps1, ts1), w1) =>
      match prepare l2 w1 with
      | (Val (ps2, ts2), w2) => (Val (ps1 ++ ps2, ts1 ++ ts2), w2)
      | (Exn e, w2) => (Exn e, w2)
      end
  | (Exn e, w1) => (Exn e, w1)
  end.
Proof.
  unfold prepare at 1. rewrite for_each_app. fold (prepare l1).
  rewrite (prepare_run l1). by rewrite prepare_loop_from.
Qed.

Lemma prepare_cons (p : string) (l : list string) (w : world) :
  prepare (p :: l) w =
  match prepare_step p ([], []) w with
  | (Val (ps1, ts1), w1) =>
      match prepare l w1 with
      | (Val (ps2, ts2), w2) => (Val (ps1 ++ ps2, ts1 ++ ts2), w2)
      | (Exn e, w2) => (Exn e, w2)
      end
  | (Exn e, w1) => (Exn e, w1)
  end.
Proof.
  unfold prepare at 1. rewrite for_each_cons.
  rewrite (prepare_step_run (w_fs w)) by apply stable_refl.
  by rewrite prepare_loop_from.
Qed.

Lemma prepare_step_from (p : string) pairs temps (w : world) :
  prepare_step p (pairs, temps) w =
  match prepare_step p ([], []) w with
  | (Val (ps, ts), w') => (Val (pairs ++ ps, temps ++ ts), w')
  | (Exn e, w') => (Exn e, w')
  end.
Proof. by rewrite !(prepare_step_run (w_fs w)) by apply stable_refl. Qed.

(** *** Writes *)

Lemma apply_writes_snoc ws (o : string) (d : bytes) (fs : filesystem) :
  apply_writes (ws ++ [(o, d)]) fs = <[o := File d]> (apply_writes ws fs).
Proof. unfold apply_writes. by rewrite foldl_app. Qed.

Lemma apply_writes_lookup_other ws (fs : filesystem) (k : string) :
  k ∉ ws.*1 -> apply_writes ws fs !! k = fs !! k.
Proof.
  induction ws as [|[o d] ws IH] using rev_ind; [done|].
  rewrite fmap_app, not_elem_of_app. simpl. intros [H1 H2].
  rewrite apply_writes_snoc, lookup_insert_ne; [by apply IH|].
  intros ->. apply H2. by left.
Qed.

Lemma apply_writes_lookup_written ws (fs fs' : filesystem) (k : string) :
  k ∈ ws.*1 -> apply_writes ws fs !! k = apply_writes ws fs' !! k.
Proof.
  induction ws as [|[o d] ws IH] using rev_ind; [by intros ?%elem_of_nil|].
  rewrite fmap_app, elem_of_app. simpl. intros H.
  rewrite !apply_writes_snoc. destruct (decide (o = k)) as [->|Hne].
  - by rewrite !lookup_insert_eq.
  - rewrite !lookup_insert_ne by done. apply IH.
    destruct H as [H|H]; [done|]. apply list_elem_of_singleton in H. congruence.
Qed.

Lemma apply_writes_twice ws (fs : filesystem) :
  apply_writes ws (apply_writes ws fs) = apply_writes ws fs.
Proof.
  apply map_eq. intros k. destruct (decide (k ∈ ws.*1)) as [Hin|Hout].
  - by apply apply_writes_lookup_written.
  - by rewrite apply_writes_lookup_other.
Qed.

(** *** The claims about [prepare] *)

(** C3. When converting a path ending in [.xlsx] or [.xls] raises, the
    turn for that path does not raise: it prints one line, the warning
    that names the path and gives the text of the exception, appends the
    original path under its original name, records no temp and leaves
    every file as it was; the remaining paths are then processed from
    that world, and their entries and temps follow. *)
Theorem prepare_conversion_failure_not_fatal
  (before after : list string) (p : string) (e : exn) (w w1 w1' : world)
  (ps1 : list (string * string)) (ts1 : list string) :
  Str.endswith_any (Str.lower p) [".xlsx"; ".xls"] = true ->
  prepare before w = (Val (ps1, ts1), w1) ->
  convert_excel_to_csv p w1 = (Exn e, w1') ->
  exists ps2 ts2 w2 w3,
    prepare_step p (ps1, ts1) w1 = (Val (ps1 ++ [(p, Path.name p)], ts1), w2) /\
    w_stdout w2 =
      w_stdout w1 ++ ["[WARN] Excel->CSV failed for " +:+ p +:+ ": " +:+ exn_str e] /\
    w_fs w2 = w_fs w1 /\
    prepare after w2 = (Val (ps2, ts2), w3) /\
    prepare (before ++ p :: after) w =
      (Val (ps1 ++ (p, Path.name p) :: ps2, ts1 ++ ts2), w3).
Proof.
  intros Hx Hb Hc.
  assert (Hstep : prepare_step p ([], []) w1 =
                  (Val ([(p, Path.name p)], []), advance [] [warn_line p e] w1)).
  { unfold prepare_step. rewrite (excel_not_csv _ Hx), Hx.
    unfold try_except, bind. rewrite Hc.
    rewrite convert_excel_to_csv_run in Hc.
    destruct (convert_result (w_fs w1) p) as [e'|[cp data]]; [|done].
    by injection Hc as -> ->. }
  set (w2 := advance [] [warn_line p e] w1) in *.
  exists (plan_pairs (w_fs w2) after), (plan_temps (w_fs w2) after), w2,
    (advance (plan_writes (w_fs w2) after) (plan_lines (w_fs w2) after) w2).
  split_and!; try done.
  - rewrite prepare_step_from, Hstep. by rewrite app_nil_r.
  - apply prepare_run.
  - rewrite prepare_app, Hb, prepare_cons, Hstep, (prepare_run after w2).
    simpl. done.
Qed.

(** C4. A path ending in [.csv] (any case) yields the entry (that path,
    its file name) and touches no file.  A path ending in [.xlsx] or
    [.xls] (any case) whose conversion returns yields an entry whose
    path is the file just written in the scratch directory with the
    serialised first sheet, whose name is the stem followed by
    [_converted.csv], and that path is appended to temps.  In both
    cases the entries of the paths before come first and those of the
    paths after come last. *)
Theorem prepare_entries
  (before after : list string) (p : string) (w w1 : world)
  (ps1 : list (string * string)) (ts1 : list string) :
  prepare before w = (Val (ps1, ts1), w1) ->
  (Str.endswith (Str.lower p) ".csv" = true ->
     exists ps2 ts2 w3,
       prepare after w1 = (Val (ps2, ts2), w3) /\
       prepare (before ++ p :: after) w =
         (Val (ps1 ++ (p, Path.name p) :: ps2, ts1 ++ ts2), w3)) /\
  (Str.endswith_any (Str.lower p) [".xlsx"; ".xls"] = true ->
     forall cp w2, convert_excel_to_csv p w1 = (Val cp, w2) ->
     exists raw df ps2 ts2 w3,
       w_fs w1 !! p = Some (File raw) /\ read_excel raw = inr df /\
       cp = Path.join tempdir (Path.stem p +:+ ".csv") /\
       w_fs w2 = <[cp := File (to_csv df)]> (w_fs w1) /\
       prepare after w2 = (Val (ps2, ts2), w3) /\
       prepare (before ++ p :: after) w =
         (Val (ps1 ++ (cp, Path.stem p +:+ "_converted.csv") :: ps2,
               ts1 ++ cp :: ts2), w3)).
Proof.
  intros Hb. split.
  - intros Hcsv.
    assert (Hstep : prepare_step p ([], []) w1 = (Val ([(p, Path.name p)], []), w1)).
    { unfold prepare_step. by rewrite Hcsv. }
    rewrite (prepare_run after w1). eexists _, _, _. split; [done|].
    by rewrite prepare_app, Hb, prepare_cons, Hstep, (prepare_run after w1).
  - intros Hx cp w2 Hc.
    assert (Hstep : prepare_step p ([], []) w1 =
                    (Val ([(cp, Path.stem p +:+ "_converted.csv")], [cp]), w2)).
    { unfold prepare_step. rewrite (excel_not_csv _ Hx), Hx.
      unfold try_except, bind. by rewrite Hc. }
    rewrite convert_excel_to_csv_run in Hc.
    destruct (convert_result (w_fs w1) p) as [e'|[cp' data]] eqn:Hr; [done|].
    injection Hc as -> <-.
    apply convert_result_ok in Hr as (Hcp & _ & raw & df & Hp & Hrd & ->).
    rewrite (prepare_run after). eexists raw, df, _, _, _. split_and!; try done.
    by rewrite prepare_app, Hb, prepare_cons, Hstep, (prepare_run after).
Qed.

(** C8. Running the loop again on the same paths, from the world the
    first run left, returns the same entries and temps (so the same
    display names in the same order) and leaves the filesystem as the
    first run left it (so the same bytes behind every entry). *)
Theorem prepare_twice
  (src : list string) (w w1 : world)
  (ps : list (string * string)) (ts : list string) :
  prepare src w = (Val (ps, ts), w1) ->
  exists ps' ts' w2,
    prepare src w1 = (Val (ps', ts'), w2) /\
    ps'.*2 = ps.*2 /\
    Forall2 (fun e e' => w_fs w2 !! e'.1 = w_fs w1 !! e.1) ps ps' /\
    ps' = ps /\ ts' = ts /\ w_fs w2 = w_fs w1.
Proof.
  rewrite prepare_run. intros H. injection H as <- <- <-.
  set (fs := w_fs w).
  set (w1 := advance (plan_writes fs src) (plan_lines fs src) w).
  assert (Hst : stable fs (w_fs w1)) by (apply plan_writes_stable, stable_refl).
  assert (Hfs : w_fs (advance (plan_writes fs src) (plan_lines fs src) w1) = w_fs w1)
    by apply apply_writes_twice.
  exists (plan_pairs fs src), (plan_temps fs src),
    (advance (plan_writes fs src) (plan_lines fs src) w1).
  split_and!; try done.
  - unfold prepare. by rewrite (prepare_loop_run fs src [] [] w1 Hst).
  - rewrite Hfs. by apply Forall2_same_length_lookup_2; [|intros; congruence].
Qed.

(** C10. Two spreadsheets with the same stem, both readable: both
    conversions write the same scratch path, the second over the first;
    the result holds two entries with that path and the same display
    name, and the path occurs twice in temps. *)
Theorem same_stem_conversions_collide
  (l1 l2 l3 : list string) (p1 p2 : string) (w : world)
  (raw1 raw2 : bytes) (df1 df2 : dataframe) :
  let out := Path.join tempdir (Path.stem p1 +:+ ".csv") in
  let shown := Path.stem p1 +:+ "_converted.csv" in
  Str.endswith_any (Str.lower p1) [".xlsx"; ".xls"] = true ->
  Str.endswith_any (Str.lower p2) [".xlsx"; ".xls"] = true ->
  Path.stem p1 = Path.stem p2 ->
  w_fs w !! p1 = Some (File raw1) -> read_excel raw1 = inr df1 ->
  w_fs w !! p2 = Some (File raw2) -> read_excel raw2 = inr df2 ->
  w_fs w !! out <> Some Dir ->
  exists ps1 ps2 ps3 ts1 ts2 ts3 wa wb wc wd we,
    prepare l1 w = (Val (ps1, ts1), wa) /\
    convert_excel_to_csv p1 wa = (Val out, wb) /\
    w_fs wb = <[out := File (to_csv df1)]> (w_fs wa) /\
    prepare l2 wb = (Val (ps2, ts2), wc) /\
    convert_excel_to_csv p2 wc = (Val out, wd) /\
    w_fs wd = <[out := File (to_csv df2)]> (w_fs wc) /\
    prepare l3 wd = (Val (ps3, ts3), we) /\
    prepare (l1 ++ p1 :: l2 ++ p2 :: l3) w =
      (Val (ps1 ++ (out, shown) :: ps2 ++ (out, shown) :: ps3,
            ts1 ++ out :: ts2 ++ out :: ts3), we).
Proof.
  intros out shown Hx1 Hx2 Hstem Hp1 Hr1 Hp2 Hr2 Hout.
  set (fs := w_fs w) in *.
  assert (Hc1 : convert_result fs p1 = inr (out, to_csv df1)).
  { unfold convert_result. rewrite Hp1, Hr1. fold out.
    by destruct (fs !! out) as [[?|]|]. }
  assert (Hc2 : convert_result fs p2 = inr (out, to_csv df2)).
  { unfold convert_result. rewrite Hp2, Hr2, <- Hstem. fold out.
    by destruct (fs !! out) as [[?|]|]. }
  pose proof (excel_not_csv _ Hx1) as Hn1. pose proof (excel_not_csv _ Hx2) as Hn2.
  (* every world reached is stable for the initial filesystem *)
  set (wa := advance (plan_writes fs l1) (plan_lines fs l1) w).
  assert (Hsa : stable fs (w_fs wa)) by (apply plan_writes_stable, stable_refl).
  set (wb := set_fs (insert out (File (to_csv df1))) wa).
  assert (Hsb : stable fs (w_fs wb)).
  { apply stable_insert; [apply out_path_csv | done | done]. }
  assert (Ha : convert_excel_to_csv p1 wa = (Val out, wb)).
  { by rewrite convert_excel_to_csv_run, (convert_result_stable fs _ p1 Hn1 Hsa), Hc1. }
  assert (Hl2 : prepare l2 wb = (Val (plan_pairs fs l2, plan_temps fs l2),
                                 advance (plan_writes fs l2) (plan_lines fs l2) wb)).
  { unfold prepare. by rewrite (prepare_loop_run fs l2 [] [] wb Hsb). }
  set (wc := advance (plan_writes fs l2) (plan_lines fs l2) wb) in *.
  assert (Hsc : stable fs (w_fs wc)) by (by apply plan_writes_stable).
  set (wd := set_fs (insert out (File (to_csv df2))) wc).
  assert (Hsd : stable fs (w_fs wd)).
  { apply stable_insert; [apply out_path_csv | done | done]. }
  assert (Hb : convert_excel_to_csv p2 wc = (Val out, wd)).
  { by rewrite convert_excel_to_csv_run, (convert_result_stable fs _ p2 Hn2 Hsc), Hc2. }
  assert (Hl3 : prepare l3 wd = (Val (plan_pairs fs l3, plan_temps fs l3),
                                 advance (plan_writes fs l3) (plan_lines fs l3) wd)).
  { unfold prepare. by rewrite (prepare_loop_run fs l3 [] [] wd Hsd). }
  assert (Hs1 : prepare_step p1 ([], []) wa = (Val ([(out, shown)], [out]), wb)).
  { unfold prepare_step. rewrite Hn1, Hx1. unfold try_except, bind. by rewrite Ha. }
  assert (Hs2 : prepare_step p2 ([], []) wc = (Val ([(out, shown)], [out]), wd)).
  { unfold prepare_step. rewrite Hn2, Hx2. unfold try_except, bind. rewrite Hb.
    unfold shown. by rewrite Hstem. }
  eexists _, _, _, _, _, _, wa, wb, wc, wd, _.
  split_and!; [apply prepare_run | exact Ha | done | exact Hl2 | exact Hb | done | exact Hl3 |].
  rewrite prepare_app, prepare_run. fold fs wa.
  rewrite prepare_cons, Hs1, prepare_app, Hl2, prepare_cons, Hs2, Hl3.
  done.
Qed.

(** *** The file name is where a path's extension sits *)

Lemma str_app_nil_r (a : string) : a +:+ "" = a.
Proof. induction a as [|x a IH]; str_simpl; [reflexivity | now rewrite IH]. Qed.

Lemma str_app_cancel_r (a b c : string) : a +:+ c = b +:+ c -> a = b.
Proof.
  revert b. induction a as [|x a IH]; intros [|y b] H; str_simpl_in H.
  - done.
  - apply (f_equal String.length) in H. simpl in H. rewrite str_app_length in H. lia.
  - apply (f_equal String.length) in H. simpl in H. rewrite str_app_length in H. lia.
  - injection H as -> H. by rewrite (IH b H).
Qed.

Lemma contains_app (c : ascii) (a b : string) :
  Str.contains c (a +:+ b) = Str.contains c a || Str.contains c b.
Proof.
  induction a as [|x a IH]; str_simpl; simpl; [reflexivity|].
  rewrite IH. by rewrite orb_assoc.
Qed.

Lemma rev_app_spec (s1 s2 : string) : String.rev_app s1 s2 = String.rev s1 +:+ s2.
Proof.
  unfold String.rev. revert s2. induction s1 as [|x s1 IH]; intros s2; simpl; [done|].
  rewrite (IH (String x s2)), (IH (String x "")). by rewrite str_app_assoc.
Qed.

Lemma rev_cons (x : ascii) (s : string) : String.rev (String x s) = String.rev s +:+ String x "".
Proof. unfold String.rev at 1. simpl. apply rev_app_spec. Qed.

Lemma split_go_cons (c a : ascii) (cur s : string) :
  Str.split_go c cur (String a s) =
  if Ascii.eqb a c then String.rev cur :: Str.split_go c "" s
  else Str.split_go c (String a cur) s.
Proof. reflexivity. Qed.

Lemma split_go_nonempty (c : ascii) (cur s : string) : Str.split_go c cur s <> [].
Proof.
  revert cur. induction s as [|a s IH]; intros cur; simpl; [done|].
  destruct (Ascii.eqb a c); [done | apply IH].
Qed.

Lemma last_cons_nonempty {A} (x d : A) (l : list A) : l <> [] -> List.last (x :: l) d = List.last l d.
Proof. by destruct l. Qed.

(** The last piece of a split is a tail of the string, free of the
    separator, and what precedes it is empty or ends with the separator. *)
Lemma split_go_last (cur s : string) :
  Str.contains Path.sep (String.rev cur) = false ->
  exists pre,
    String.rev cur +:+ s = pre +:+ List.last (Str.split_go Path.sep cur s) "" /\
    (pre = "" \/ exists q, pre = q +:+ "/") /\
    Str.contains Path.sep (List.last (Str.split_go Path.sep cur s) "") = false.
Proof.
  revert cur. induction s as [|a s IH]; intros cur Hcur.
  - exists "". split_and!; [by rewrite str_app_nil_r | by left | done].
  - rewrite split_go_cons. destruct (Ascii.eqb_spec a Path.sep) as [->|Hne].
    + rewrite last_cons_nonempty by apply split_go_nonempty.
      destruct (IH "" eq_refl) as (pre & E & Hpre & Hl).
      change (String.rev "") with "" in E. str_simpl_in E.
      exists (String.rev cur +:+ "/" +:+ pre). split; [|split; [|exact Hl]].
      * rewrite !str_app_assoc. str_simpl. by rewrite <- E.
      * right. destruct Hpre as [->|[q ->]].
        -- exists (String.rev cur). by rewrite str_app_nil_r.
        -- exists (String.rev cur +:+ "/" +:+ q). by rewrite !str_app_assoc.
    + destruct (IH (String a cur)) as (pre & E & Hpre & Hl).
      { rewrite rev_cons, contains_app, Hcur. simpl.
        destruct (Ascii.eqb_spec a Path.sep); [done|reflexivity]. }
      exists pre. split; [|by split].
      rewrite <- E, rev_cons, str_app_assoc. by str_simpl.
Qed.

Lemma last_filter {A} (P : A -> Prop) `{forall x, Decision (P x)} (l : list A) (d : A) :
  l <> [] -> P (List.last l d) -> List.last (filter P l) d = List.last l d.
Proof.
  destruct l as [|x l _] using rev_ind; [done|].
  rewrite List.last_last. intros _ HP.
  rewrite filter_app, filter_cons, decide_True, filter_nil by done.
  apply List.last_last.
Qed.

(** A suffix free of separators, other than the empty string and the
    single dot, that ends the lower-cased path ends the lower-cased file
    name. *)
Lemma name_endswith (p suf : string) :
  Str.contains Path.sep suf = false -> suf <> "" -> suf <> "." ->
  Str.endswith (Str.lower p) suf = true ->
  Str.endswith (Str.lower (Path.name p)) suf = true.
Proof.
  intros Hsep Hne Hdot Hend.
  destruct (split_go_last "" p eq_refl) as (pre & E & Hpre & _).
  change (String.rev "" +:+ p) with p in E. fold (Str.split Path.sep p) in E.
  set (L := List.last (Str.split Path.sep p) "") in *.
  apply endswith_spec in Hend as [x Hx].
  rewrite E, lower_app in Hx.
  assert (Hsuf : exists z, Str.lower L = z +:+ suf).
  { destruct (le_lt_dec (String.length suf) (String.length (Str.lower L))) as [Hle|Hlt].
    - symmetry in Hx. by apply suffix_of_suffix in Hx.
    - pose proof Hx as Hx'. apply suffix_of_suffix in Hx' as [z Hz]; [|lia]. exfalso.
      rewrite Hz, <- str_app_assoc in Hx. apply str_app_cancel_r in Hx.
      assert (Hzne : z <> "").
      { intros ->. rewrite Hz in Hlt. str_simpl_in Hlt. lia. }
      destruct Hpre as [->|[q ->]].
      + simpl in Hx. destruct x, z; try done.
      + rewrite lower_app in Hx. change (Str.lower "/") with "/" in Hx.
        apply suffix_of_suffix in Hx as [z' Hz'].
        * rewrite Hz, Hz', !contains_app in Hsep.
          change (Str.contains Path.sep "/") with true in Hsep.
          by rewrite orb_true_r in Hsep.
        * destruct z; [done | simpl; lia]. }
  destruct Hsuf as [z Hz].
  assert (HL : L <> "" /\ L <> ".").
  { split; intros HL; rewrite HL in Hz; simpl in Hz.
    - destruct z, suf; done.
    - destruct z as [|c z]; str_simpl_in Hz.
      + by subst suf.
      + injection Hz as _ Hz. destruct z, suf; done. }
  unfold Path.name, Path.parts.
  rewrite (last_filter _ _ "") by (try apply split_go_nonempty; done).
  fold L. apply endswith_spec. by exists z.
Qed.

(** The three extensions, read on the file name. *)
Lemma name_without_extension (p suf : string) :
  suf = ".csv" \/ suf = ".xlsx" \/ suf = ".xls" ->
  Str.endswith (Str.lower (Path.name p)) suf = false ->
  Str.endswith (Str.lower p) suf = false.
Proof.
  intros Hs Hn. destruct (Str.endswith (Str.lower p) suf) eqn:Hp; [|done].
  apply name_endswith in Hp; [congruence| | |];
    destruct Hs as [-> | [-> | ->]]; done.
Qed.

(** *** The source resolver on a single file *)

(** C5. When the configured path is an existing regular file,
    [find_sources] returns the list holding just that path, whatever its
    extension, and touches nothing. *)
Theorem find_sources_single_file (w : world) :
  is_file (w_fs w) (CSV_TARGET cfg) = true ->
  find_sources w = (Val [CSV_TARGET cfg], w).
Proof.
  intros H. unfold find_sources, bind, isfile. by rewrite H.
Qed.

Lemma send_run (msg : outgoing) (w : world) :
  send msg w =
  (match transport (w_outbox w) msg with None => Val tt | Some e => Exn e end, sent msg w).
Proof. unfold send, sent. by destruct (transport _ _). Qed.

(** C9. The configured path is an existing regular file whose name ends
    in none of [.csv], [.xlsx], [.xls] (any case): [find_sources] returns
    it, [prepare_files] returns no entry and no temp and changes nothing,
    and either handler, once the link message went out, makes exactly one
    more call on the transport, the text that no CSV or Excel file was
    found at that path, and leaves everything else as it was. *)
Theorem unsupported_single_file_dropped (w : world) :
  let p := CSV_TARGET cfg in
  let report := ReplyText ("⚠️ No CSV/Excel files found at " +:+ p) None in
  is_file (w_fs w) p = true ->
  Str.endswith (Str.lower (Path.name p)) ".csv" = false ->
  Str.endswith (Str.lower (Path.name p)) ".xlsx" = false ->
  Str.endswith (Str.lower (Path.name p)) ".xls" = false ->
  transport (w_outbox w) link_message = None ->
  find_sources w = (Val [p], w) /\
  prepare_files w = (Val ([], []), w) /\
  (exists r, send_zip w = (r, sent report (sent link_message w))) /\
  (exists r, send_files w = (r, sent report (sent link_message w))).
Proof.
  intros p report Hf Hc Hx Hs Hlink.
  apply name_without_extension in Hc; [|by left].
  apply name_without_extension in Hx; [|by right; left].
  apply name_without_extension in Hs; [|by right; right].
  assert (Hfind : forall w', w_fs w' = w_fs w -> find_sources w' = (Val [p], w')).
  { intros w' E. unfold find_sources, bind, isfile. fold p. by rewrite E, Hf. }
  assert (Hprep : forall w', w_fs w' = w_fs w -> prepare_files w' = (Val ([], []), w')).
  { intros w' E. unfold prepare_files, bind. rewrite (Hfind w' E), prepare_run.
    unfold plan_pairs, plan_temps, plan_writes, plan_lines, plan_step. simpl.
    rewrite Hc. unfold Str.endswith_any. simpl. rewrite Hx, Hs. simpl.
    by rewrite advance_nil. }
  assert (Hhint : forall w', w_fs w' = w_fs w -> target_hint w' = (Val p, w')).
  { intros w' E. unfold target_hint, bind, isfile, ret. fold p. by rewrite E, Hf. }
  split; [by apply Hfind|]. split; [by apply Hprep|].
  split; eexists; unfold send_zip, send_files, bind, send_link;
    rewrite send_run, Hlink, (Hprep (sent link_message w) eq_refl);
    rewrite (Hhint (sent link_message w) eq_refl);
    unfold reply_text; by rewrite send_run.
Qed.

(** *** The archive *)

Lemma zip_step_run (path name : string) members (x : bytes) (w : world) :
  path <> zip_path ->
  zip_step (path, name) members (set_fs (insert zip_path (File x)) w) =
  match w_fs w !! path with
  | Some (File data) =>
      match zip_refuses path with
      | Some e => (Exn e, set_fs (insert zip_path (File x)) w)
      | None =>
          (Val (members ++ [(name, data)]),
           set_fs (insert zip_path (File (zip_partial (members ++ [(name, data)])))) w)
      end
  | _ => (Val members, set_fs (insert zip_path (File x)) w)
  end.
Proof.
  intros Hp. unfold zip_step, bind, isfile, is_file, read_file, write_file, ret. simpl.
  rewrite !lookup_insert_ne by done.
  destruct (w_fs w !! path) as [[data|]|] eqn:Hl; simpl; try done.
  destruct (zip_refuses path); [done|]. simpl.
  rewrite lookup_insert_ne, Hl by done. simpl.
  rewrite lookup_insert_eq. unfold set_fs. simpl. by rewrite insert_insert_eq.
Qed.

Lemma for_each_keep_cons {A S} (x : A) (l : list A) (body : A -> S -> M S) (acc : S)
  (w : world) :
  for_each_keep (x :: l) body acc w =
  match body x acc w with
  | (Val acc', w') => for_each_keep l body acc' w'
  | (Exn e, w') => (Val (acc, Some e), w')
  end.
Proof. reflexivity. Qed.

Lemma for_each_keep_app {A S} (l1 l2 : list A) (body : A -> S -> M S) (acc : S) (w : world) :
  for_each_keep (l1 ++ l2) body acc w =
  match for_each_keep l1 body acc w with
  | (Val (acc', None), w') => for_each_keep l2 body acc' w'
  | r => r
  end.
Proof.
  revert acc w. induction l1 as [|x l1 IH]; intros acc w; [done|].
  change ((x :: l1) ++ l2) with (x :: (l1 ++ l2)). rewrite !for_each_keep_cons.
  destruct (body x acc w) as [[acc'|e] w']; [apply IH | done].
Qed.

(** The loop over entries zipfile takes, none of which is the archive
    itself. *)
Lemma zip_loop_run (pairs : list (string * string)) members (x : bytes) (w : world) :
  Forall (fun e => e.1 <> zip_path) pairs ->
  accepted (w_fs w) pairs ->
  exists x',
    for_each_keep pairs zip_step members (set_fs (insert zip_path (File x)) w) =
    (Val (members ++ members_of (w_fs w) pairs, None), set_fs (insert zip_path (File x')) w).
Proof.
  revert members x. induction pairs as [|[path name] pairs IH]; intros members x Hne Hacc.
  - exists x. simpl. unfold ret. by rewrite app_nil_r.
  - apply Forall_cons in Hne as [Hp Hrest]. apply Forall_cons in Hacc as [Ha Harest].
    simpl in Hp, Ha. unfold is_file in Ha.
    rewrite for_each_keep_cons, zip_step_run by done. unfold members_of. simpl.
    destruct (w_fs w !! path) as [[data|]|]; simpl.
    + rewrite Ha by done.
      destruct (IH (members ++ [(name, data)]) (zip_partial (members ++ [(name, data)]))
                  Hrest Harest) as [x' Hx'].
      exists x'. rewrite Hx'. by rewrite <- app_assoc.
    + by apply IH.
    + by apply IH.
Qed.

(** C6, as amended.  When the archive path is not a directory, no entry
    reads the archive path itself and zipfile takes every entry that is a
    regular file, [zip_pairs] returns the fixed scratch path and leaves
    there, over whatever was there, the archive whose members are the
    bytes of every entry whose path is an existing file, under the
    entry's display name, in order; the other entries are skipped without
    raising.  With no entry the archive has no member. *)
Theorem zip_pairs_archive (pairs : list (string * string)) (w : world) :
  w_fs w !! zip_path <> Some Dir ->
  Forall (fun e => e.1 <> zip_path) pairs ->
  accepted (w_fs w) pairs ->
  zip_path = Path.join tempdir "test_portfolios.zip" /\
  zip_pairs pairs w =
    (Val zip_path,
     set_fs (insert zip_path (File (zip_encode (members_of (w_fs w) pairs)))) w) /\
  zip_pairs [] w = (Val zip_path, set_fs (insert zip_path (File (zip_encode []))) w).
Proof.
  intros Hnd Hne Hacc.
  assert (Hopen : forall x, write_file zip_path x w = (Val tt, set_fs (insert zip_path (File x)) w)).
  { intros x. unfold write_file. by destruct (w_fs w !! zip_path) as [[?|]|]. }
  assert (Hclose : forall x y, write_file zip_path y (set_fs (insert zip_path (File x)) w) =
                               (Val tt, set_fs (insert zip_path (File y)) w)).
  { intros x y. unfold write_file. simpl. rewrite lookup_insert_eq.
    unfold set_fs. simpl. by rewrite insert_insert_eq. }
  split; [done|]. split.
  - unfold zip_pairs, bind. rewrite Hopen.
    destruct (zip_loop_run pairs [] (zip_partial []) w Hne Hacc) as [x' ->].
    by rewrite Hclose.
  - unfold zip_pairs, bind. rewrite Hopen. simpl. unfold ret. by rewrite Hclose.
Qed.

(** *** Cleanup: what the [finally] blocks do guarantee *)

Lemma try_pass_remove_run (t : string) (w : world) :
  try_pass (os_remove t) w =
  (Val tt, set_fs (fun fs => if is_file fs t then delete t fs else fs) w).
Proof.
  unfold try_pass, try_except, os_remove, is_file, ret, set_fs.
  destruct w as [fs out box]; simpl. by destruct (fs !! t) as [[?|]|].
Qed.

Lemma remove_temps_run (temps : list string) (w : world) :
  remove_temps temps w = (Val tt, set_fs (removed temps) w).
Proof.
  unfold remove_temps. revert w. induction temps as [|t temps IH]; intros w.
  - by destruct w.
  - rewrite for_each_cons, try_pass_remove_run, IH. by destruct w.
Qed.

Lemma removed_stays_gone (temps : list string) (fs : filesystem) (t : string) :
  is_file fs t = false -> is_file (removed temps fs) t = false.
Proof.
  revert fs. induction temps as [|x temps IH]; intros fs H; [done|].
  apply IH. destruct (is_file fs x); [|done].
  unfold is_file in *. destruct (decide (x = t)) as [->|Hne].
  - by rewrite lookup_delete_eq.
  - by rewrite lookup_delete_ne.
Qed.

Lemma removed_gone (temps : list string) (fs : filesystem) (t : string) :
  t ∈ temps -> is_file (removed temps fs) t = false.
Proof.
  revert fs. induction temps as [|x temps IH]; intros fs Hin.
  - by apply elem_of_nil in Hin.
  - apply elem_of_cons in Hin as [->|Hin]; [|by apply IH].
    change (removed (x :: temps) fs)
      with (removed temps (if is_file fs x then delete x fs else fs)).
    apply removed_stays_gone. destruct (is_file fs x) eqn:Hx; [|done].
    unfold is_file. by rewrite lookup_delete_eq.
Qed.

Lemma plan_temps_nil (fs : filesystem) (src : list string) :
  plan_pairs fs src = [] -> plan_temps fs src = [].
Proof.
  unfold plan_pairs, plan_temps. induction src as [|p src IH]; [done|].
  simpl. intros H. apply app_eq_nil in H as [H1 H2]. rewrite (IH H2), app_nil_r.
  unfold plan_step in *.
  destruct (Str.endswith _ _); [done|]. destruct (Str.endswith_any _ _); [|done].
  by destruct (convert_result fs p) as [?|[??]].
Qed.

Lemma try_finally_remove_fs {A} (body : M A) (temps : list string) (w : world) :
  w_fs (try_finally body (remove_temps temps) w).2 = removed temps (w_fs (body w).2).
Proof.
  unfold try_finally. destruct (body w) as [r w']. by rewrite remove_temps_run.
Qed.

(** X1. [send_files]: once the link went out, whatever the transport does
    with the documents, no temp recorded by [prepare_files] is left as a
    file when the handler is done. *)
Lemma send_files_cleanup (w w0 w1 : world) ps ts (t : string) :
  send_link w = (Val tt, w0) ->
  prepare_files w0 = (Val (ps, ts), w1) ->
  t ∈ ts -> is_file (w_fs (send_files w).2) t = false.
Proof.
  intros Hl Hp Hin. unfold send_files, bind. rewrite Hl, Hp.
  unfold target_hint, bind, isfile, ret.
  destruct ps as [|pr ps].
  - exfalso. unfold prepare_files, bind in Hp.
    destruct (find_sources w0) as [[src|e] w']; [|done].
    rewrite prepare_run in Hp. injection Hp as Hps Hts _.
    rewrite <- Hts, (plan_temps_nil _ _ Hps) in Hin. by apply elem_of_nil in Hin.
  - rewrite try_finally_remove_fs. by apply removed_gone.
Qed.

(** [send_zip]: the same, and the archive too, provided [zip_pairs]
    returned. *)
Lemma send_zip_cleanup (w w0 w1 w2 : world) ps ts (zp t : string) :
  send_link w = (Val tt, w0) ->
  prepare_files w0 = (Val (ps, ts), w1) ->
  ps <> [] ->
  zip_pairs ps w1 = (Val zp, w2) ->
  t ∈ zp :: ts -> is_file (w_fs (send_zip w).2) t = false.
Proof.
  intros Hl Hp Hne Hz Hin. unfold send_zip, bind. rewrite Hl, Hp.
  unfold target_hint, bind, isfile, ret.
  destruct ps as [|pr ps]; [done|]. rewrite Hz.
  unfold try_finally.
  destruct (reply_document_from _ _ _ w2) as [r w3].
  unfold bind. rewrite try_pass_remove_run, remove_temps_run. simpl.
  change (is_file (removed (zp :: ts) (w_fs w3)) t = false). by apply removed_gone.
Qed.

(** [zip_pairs] raises, touching nothing, when a directory sits at the
    archive path; and when [zip_pairs] raises, [send_zip] ends with that
    exception in the very world [zip_pairs] left: no [os.remove] runs. *)
Lemma zip_pairs_blocked (pairs : list (string * string)) (w : world) :
  w_fs w !! zip_path = Some Dir ->
  zip_pairs pairs w = (Exn (IsADirectoryError zip_path), w).
Proof. intros H. unfold zip_pairs, bind, write_file. by rewrite H. Qed.

Lemma send_zip_packing_failure (w w0 w1 w2 : world) ps ts (e : exn) :
  send_link w = (Val tt, w0) ->
  prepare_files w0 = (Val (ps, ts), w1) ->
  ps <> [] ->
  zip_pairs ps w1 = (Exn e, w2) ->
  send_zip w = (Exn e, w2).
Proof.
  intros Hl Hp Hne Hz. unfold send_zip, bind. rewrite Hl, Hp.
  unfold target_hint, bind, isfile, ret.
  destruct ps as [|pr ps]; [done|]. by rewrite Hz.
Qed.

(** *** What the directory scan does guarantee *)

Global Instance le_lower_total : Total le_lower.
Proof. intros a b. unfold le_lower. apply String.le_total. Qed.

(** X2. What [_list_from_dir] returns holds no path twice, although the
    four patterns may each yield the same path; and when the paths are
    ASCII, where the sort key is Python's, it is in the order of the
    lower-cased paths. *)
Lemma list_from_dir_sorted_nodup (directory : string) (w w' : world) (files : list string) :
  _list_from_dir directory w = (Val files, w') ->
  NoDup files /\
  (Forall (fun p => all_chars is_ascii p = true) files -> Sorted le_lower files).
Proof.
  unfold _list_from_dir, bind. destruct (makedirs directory w) as [[[]|e] w1]; [|done].
  destruct (for_each _ _ _ w1) as [[found|e] w2]; [|done].
  unfold ret. intros H. injection H as <- _. split.
  - unfold sorted_lower, set_iter. rewrite merge_sort_Permutation. apply NoDup_elements.
  - intros _. apply Sorted_merge_sort, _.
Qed.


(** ** Further properties of the program *)

(** *** What [prepare] keeps *)

Lemma plan_step_write_keys (fs : filesystem) (p : string) :
  (t_writes (plan_step fs p)).*1 = t_temps (plan_step fs p).
Proof.
  unfold plan_step. destruct (Str.endswith _ _); [done|].
  destruct (Str.endswith_any _ _); [|done].
  by destruct (convert_result fs p) as [?|[??]].
Qed.

Lemma plan_writes_keys (fs : filesystem) (src : list string) :
  (plan_writes fs src).*1 = plan_temps fs src.
Proof.
  unfold plan_writes, plan_temps. induction src as [|p src IH]; [done|].
  simpl. by rewrite fmap_app, IH, plan_step_write_keys.
Qed.

Lemma apply_writes_is_file ws (fs : filesystem) (k : string) :
  k ∈ ws.*1 -> is_file (apply_writes ws fs) k = true.
Proof.
  induction ws as [|[o d] ws IH] using rev_ind; [by intros ?%elem_of_nil|].
  rewrite fmap_app, elem_of_app. simpl. intros H.
  rewrite apply_writes_snoc. unfold is_file in *.
  destruct (decide (o = k)) as [->|Hne].
  - by rewrite lookup_insert_eq.
  - rewrite lookup_insert_ne by done. apply IH.
    destruct H as [H|H]; [done|]. apply list_elem_of_singleton in H. congruence.
Qed.

(** X3. The loop of [prepare_files] never raises, makes no call on the
    transport, changes the filesystem only at the paths it records in
    temps, and each of those is a regular file when it returns. *)
Theorem prepare_effects (src : list string) (w : world) :
  exists ps ts w',
    prepare src w = (Val (ps, ts), w') /\
    w_outbox w' = w_outbox w /\
    (forall p, p ∉ ts -> w_fs w' !! p = w_fs w !! p) /\
    (forall t, t ∈ ts -> is_file (w_fs w') t = true).
Proof.
  rewrite prepare_run. eexists _, _, _. split; [done|]. simpl.
  split; [done|]. split.
  - intros p Hp. apply apply_writes_lookup_other. by rewrite plan_writes_keys.
  - intros t Ht. apply apply_writes_is_file. by rewrite plan_writes_keys.
Qed.

(** X4. Every entry is an input path under its own file name, or the
    scratch path of an input path's conversion under the [_converted]
    name, that path being in temps; there are no more entries than input
    paths, and every temp is the path of an entry. *)
Theorem prepare_entries_shape (src : list string) (w w' : world)
  (ps : list (string * string)) (ts : list string) :
  prepare src w = (Val (ps, ts), w') ->
  Forall (fun e =>
            exists p, p ∈ src /\
              (e = (p, Path.name p) \/
               (e = (Path.join tempdir (Path.stem p +:+ ".csv"),
                     Path.stem p +:+ "_converted.csv") /\ e.1 ∈ ts))) ps /\
  length ps <= length src /\
  ts ⊆ ps.*1.
Proof.
  rewrite prepare_run. intros H. injection H as <- <- _.
  set (fs := w_fs w). unfold plan_pairs, plan_temps.
  induction src as [|p src (IH1 & IH2 & IH3)]; simpl.
  { split_and!; [constructor | lia | done]. }
  assert (Hstep :
    (t_pairs (plan_step fs p) = [(p, Path.name p)] /\ t_temps (plan_step fs p) = []) \/
    (t_pairs (plan_step fs p) =
       [(Path.join tempdir (Path.stem p +:+ ".csv"), Path.stem p +:+ "_converted.csv")] /\
     t_temps (plan_step fs p) = [Path.join tempdir (Path.stem p +:+ ".csv")]) \/
    (t_pairs (plan_step fs p) = [] /\ t_temps (plan_step fs p) = [])).
  { unfold plan_step. destruct (Str.endswith _ _); [by left|].
    destruct (Str.endswith_any _ _); [|by right; right].
    destruct (convert_result fs p) as [e|[cp data]] eqn:Hc; [by left|].
    apply convert_result_ok in Hc as (-> & _). by right; left. }
  assert (Hweak : forall extra,
    Forall (fun e : string * string =>
              exists q, q ∈ p :: src /\
                (e = (q, Path.name q) \/
                 (e = (Path.join tempdir (Path.stem q +:+ ".csv"),
                       Path.stem q +:+ "_converted.csv") /\
                  e.1 ∈ extra ++ flat_map (fun p => t_temps (plan_step fs p)) src)))
      (flat_map (fun p => t_pairs (plan_step fs p)) src)).
  { intros extra. eapply Forall_impl; [exact IH1|].
    intros e (q & Hq & [He | [He Hin]]); exists q; (split; [by right|]).
    - by left.
    - right. split; [done|]. apply elem_of_app. by right. }
  destruct Hstep as [[-> ->] | [[-> ->] | [-> ->]]]; simpl.
  - split_and!; [|lia|].
    + constructor; [|apply (Hweak [])]. exists p. split; [by left | by left].
    + intros t Ht. right. by apply IH3.
  - split_and!; [|lia|].
    + constructor; [|apply (Hweak [_])].
      exists p. split; [by left|]. right. split; [done|]. simpl. by left.
    + intros t Ht. apply elem_of_cons in Ht as [->|Ht]; [by left|]. right. by apply IH3.
  - split_and!; [apply (Hweak []) | lia | done].
Qed.

(** X5. No entry, no temp: when the loop returns no entry it has written
    nothing and recorded no temp, so the handlers' early return leaves
    nothing behind. *)
Theorem prepare_no_entries_no_temps (src : list string) (w w' : world) (ts : list string) :
  prepare src w = (Val ([], ts), w') ->
  ts = [] /\ w_fs w' = w_fs w.
Proof.
  rewrite prepare_run. intros H. injection H as Hps Hts Hw.
  apply plan_temps_nil in Hps as Hnil. rewrite Hnil in Hts. subst ts. split; [done|].
  rewrite <- Hw. simpl.
  assert (Hws : plan_writes (w_fs w) src = []).
  { apply (fmap_nil_inv fst). by rewrite plan_writes_keys. }
  by rewrite Hws.
Qed.

(** *** The directory scan *)

Lemma glob_loop_run (pats : list string) (acc : list string) (w : world) :
  for_each pats (fun p files => fun w => (Val (files ++ glob (w_fs w) p), w)) acc w =
  (Val (acc ++ flat_map (glob (w_fs w)) pats), w).
Proof.
  revert acc. induction pats as [|p pats IH]; intros acc.
  - simpl. unfold ret. by rewrite app_nil_r.
  - rewrite for_each_cons, IH. simpl. by rewrite <- app_assoc.
Qed.

Lemma makedirs_from_cons (pre c : string) (cs : list string) :
  makedirs_from pre (c :: cs) =
  ((if implicit_dir c then ret tt
    else fun w =>
      match w_fs w !! (pre +:+ c) with
      | Some Dir => (Val tt, w)
      | Some (File _) =>
          (Exn (match cs with
                | [] => FileExistsError (pre +:+ c)
                | c' :: _ => NotADirectoryError (pre +:+ c +:+ "/" +:+ c')
                end), w)
      | None => (Val tt, set_fs (insert (pre +:+ c) Dir) w)
      end) ;;
   makedirs_from (pre +:+ c +:+ "/") cs).
Proof. reflexivity. Qed.

(** [makedirs] prints and sends nothing, and on disk it only makes
    directories, at paths on the way to its argument where nothing was. *)
Lemma makedirs_from_frame (pre : string) (comps : list string) (w : world) :
  w_stdout (makedirs_from pre comps w).2 = w_stdout w /\
  w_outbox (makedirs_from pre comps w).2 = w_outbox w /\
  forall p, w_fs (makedirs_from pre comps w).2 !! p = w_fs w !! p \/
            (p ∈ ancestors_from pre comps /\ w_fs w !! p = None /\
             w_fs (makedirs_from pre comps w).2 !! p = Some Dir).
Proof.
  revert pre w. induction comps as [|c cs IH]; intros pre w.
  - split_and!; [done..|]. intros p. by left.
  - rewrite makedirs_from_cons. unfold bind. simpl ancestors_from.
    destruct (implicit_dir c).
    { unfold ret. destruct (IH (pre +:+ c +:+ "/") w) as (Ho & Hb & Hfs).
      split_and!; [done..|]. intros p. destruct (Hfs p) as [H|(? & ? & ?)]; [by left|].
      right. by split_and!. }
    destruct (w_fs w !! (pre +:+ c)) as [[data|]|] eqn:Hl.
    + split_and!; [done..|]. intros p. by left.
    + destruct (IH (pre +:+ c +:+ "/") w) as (Ho & Hb & Hfs).
      split_and!; [done..|]. intros p. destruct (Hfs p) as [H|(? & ? & ?)]; [by left|].
      right. split_and!; [|done..]. apply elem_of_app. by right.
    + destruct (IH (pre +:+ c +:+ "/") (set_fs (insert (pre +:+ c) Dir) w)) as (Ho & Hb & Hfs).
      split_and!; [done..|]. intros p. simpl in Hfs.
      destruct (decide (p = pre +:+ c)) as [->|Hne].
      * right. split_and!; [apply elem_of_app; left; apply list_elem_of_here | done |].
        destruct (Hfs (pre +:+ c)) as [H|(_ & H & _)].
        -- by rewrite H, lookup_insert_eq.
        -- by rewrite lookup_insert_eq in H.
      * destruct (Hfs p) as [H|(? & H & ?)].
        -- left. by rewrite H, lookup_insert_ne.
        -- right. rewrite lookup_insert_ne in H by done.
           split_and!; [|done..]. apply elem_of_app. by right.
Qed.

(** A regular file on the way makes [makedirs] raise. *)
Lemma makedirs_from_blocked (pre : string) (comps : list string) (w : world) (a : string) :
  a ∈ ancestors_from pre comps -> is_file (w_fs w) a = true ->
  exists e w', makedirs_from pre comps w = (Exn e, w').
Proof.
  revert pre w. induction comps as [|c cs IH]; intros pre w Hin Hf.
  - by apply elem_of_nil in Hin.
  - rewrite makedirs_from_cons. unfold bind. simpl in Hin.
    destruct (implicit_dir c).
    { unfold ret. by apply IH. }
    apply elem_of_cons in Hin.
    destruct (w_fs w !! (pre +:+ c)) as [[data|]|] eqn:Hl.
    + by eexists _, _.
    + apply IH; [|done]. destruct Hin as [->|Hin]; [|done].
      unfold is_file in Hf. by rewrite Hl in Hf.
    + apply IH.
      * destruct Hin as [->|Hin]; [|done]. unfold is_file in Hf. by rewrite Hl in Hf.
      * unfold is_file in *. simpl. destruct (decide (a = pre +:+ c)) as [->|Hne].
        -- by rewrite Hl in Hf.
        -- by rewrite lookup_insert_ne.
Qed.

Lemma concat_split_go (cur s : string) :
  String.concat "/" (Str.split_go Path.sep cur s) = String.rev cur +:+ s.
Proof.
  revert cur. induction s as [|a s IH]; intros cur.
  - simpl. by rewrite str_app_nil_r.
  - rewrite split_go_cons. destruct (Ascii.eqb_spec a Path.sep) as [->|Hne].
    + pose proof (split_go_nonempty Path.sep "" s) as Hn.
      specialize (IH ""). destruct (Str.split_go Path.sep "" s) as [|x l]; [done|].
      change (String.concat "/" (String.rev cur :: x :: l))
        with (String.rev cur +:+ "/" +:+ String.concat "/" (x :: l)).
      rewrite IH. done.
    + rewrite IH, rev_cons, str_app_assoc. done.
Qed.

(** When [makedirs] raises, either its argument itself is a regular
    file, or a regular file sits above it. *)
Lemma makedirs_from_raises (pre : string) (comps : list string) (w w' : world) (e : exn) :
  makedirs_from pre comps w = (Exn e, w') ->
  (e = FileExistsError (pre +:+ String.concat "/" comps) /\
   is_file (w_fs w) (pre +:+ String.concat "/" comps) = true) \/
  (exists p, e = NotADirectoryError p).
Proof.
  revert pre w. induction comps as [|c cs IH]; intros pre w Hrun; [done|].
  rewrite makedirs_from_cons in Hrun. unfold bind in Hrun.
  assert (Hrest : forall w1, (forall q, is_file (w_fs w1) q = true -> is_file (w_fs w) q = true) ->
            makedirs_from (pre +:+ c +:+ "/") cs w1 = (Exn e, w') ->
            (e = FileExistsError (pre +:+ String.concat "/" (c :: cs)) /\
             is_file (w_fs w) (pre +:+ String.concat "/" (c :: cs)) = true) \/
            (exists p, e = NotADirectoryError p)).
  { intros w1 Hsub H1. destruct cs as [|c' cs']; [done|].
    apply IH in H1 as [[-> Hf]|H1]; [left|by right].
    change (String.concat "/" (c :: c' :: cs'))
      with (c +:+ "/" +:+ String.concat "/" (c' :: cs')).
    rewrite <- !str_app_assoc. rewrite <- !str_app_assoc in Hf. split; [done|].
    by apply Hsub. }
  destruct (implicit_dir c).
  { unfold ret in Hrun. by apply (Hrest w). }
  destruct (w_fs w !! (pre +:+ c)) as [[data|]|] eqn:Hl.
  - injection Hrun as <- <-. destruct cs as [|c' cs'].
    + left. simpl. unfold is_file. by rewrite Hl.
    + right. by eexists.
  - by apply (Hrest w).
  - apply (Hrest (set_fs (insert (pre +:+ c) Dir) w)); [|done].
    intros q. unfold is_file. simpl. destruct (decide (q = pre +:+ c)) as [->|Hne].
    + by rewrite lookup_insert_eq.
    + by rewrite lookup_insert_ne.
Qed.

Lemma list_from_dir_run (directory : string) (w : world) :
  _list_from_dir directory w =
  match makedirs directory w with
  | (Val _, w1) =>
      (Val (sorted_lower (set_iter (flat_map (glob (w_fs w1)) (patterns_of directory)))), w1)
  | (Exn e, w1) => (Exn e, w1)
  end.
Proof.
  unfold _list_from_dir, bind.
  destruct (makedirs directory w) as [[[]|e] w1]; [|done]. by rewrite glob_loop_run.
Qed.

(** X7. [find_sources] prints nothing and sends nothing, whatever it
    finds.  On disk it can only make directories, at paths on the way to
    the configured one where nothing was: no node is replaced or removed.
    When the configured path is not a regular file and a regular file
    sits on the way to it, the scan does not start: [find_sources] ends
    with the [NotADirectoryError] of [os.makedirs]. *)
Theorem find_sources_effects (w : world) :
  w_stdout (find_sources w).2 = w_stdout w /\
  w_outbox (find_sources w).2 = w_outbox w /\
  (forall p, w_fs (find_sources w).2 !! p = w_fs w !! p \/
             (p ∈ ancestors (CSV_TARGET cfg) /\ w_fs w !! p = None /\
              w_fs (find_sources w).2 !! p = Some Dir)) /\
  (forall a, is_file (w_fs w) (CSV_TARGET cfg) = false ->
             a ∈ ancestors (CSV_TARGET cfg) -> is_file (w_fs w) a = true ->
             exists p, (find_sources w).1 = Exn (NotADirectoryError p)).
Proof.
  unfold find_sources, bind, isfile.
  destruct (is_file (w_fs w) (CSV_TARGET cfg)) eqn:Hf.
  { split_and!; [done..| |done]. intros p. by left. }
  rewrite list_from_dir_run. unfold makedirs, ancestors.
  destruct (makedirs_from_frame "" (Str.split Path.sep (CSV_TARGET cfg)) w) as (Ho & Hb & Hfs).
  destruct (makedirs_from "" (Str.split Path.sep (CSV_TARGET cfg)) w) as [[[]|e] w1] eqn:Hm;
    simpl in *.
  - split_and!; [done..|]. intros a _ Hin Ha.
    destruct (makedirs_from_blocked _ _ w a Hin Ha) as (e & w' & He). congruence.
  - split_and!; [done..|]. intros a _ Hin Ha.
    apply makedirs_from_raises in Hm as [[_ Hm]|[p ->]]; [|by exists p].
    unfold Str.split in Hm. rewrite concat_split_go in Hm.
    change (String.rev "" +:+ CSV_TARGET cfg) with (CSV_TARGET cfg) in Hm.
    change ("" +:+ CSV_TARGET cfg) with (CSV_TARGET cfg) in Hm. congruence.
Qed.

(** *** What the four patterns match *)

Lemma fnmatch_star_unfold (pat n : string) :
  fnmatch (String "*"%char pat) n =
  fnmatch pat n || match n with
                   | EmptyString => false
                   | String _ n' => fnmatch (String "*"%char pat) n'
                   end.
Proof. by destruct n. Qed.

Lemma fnmatch_literal (lit n : string) :
  literal lit -> fnmatch lit n = true <-> n = lit.
Proof.
  revert n. induction lit as [|c lit IH]; intros n [Hs Hq].
  - simpl. split; [by intros ?%String.eqb_eq | intros ->; apply String.eqb_refl].
  - simpl in Hs, Hq. apply orb_false_iff in Hs as [Hc1 Hs]. apply orb_false_iff in Hq as [Hc2 Hq].
    simpl. rewrite Hc1. destruct n as [|a n]; [done|]. rewrite Hc2. simpl.
    rewrite andb_true_iff, (IH n (conj Hs Hq)). split.
    + intros [Ha ->]. apply Ascii.eqb_eq in Ha. by subst.
    + intros H. injection H as -> ->. split; [apply Ascii.eqb_refl | done].
Qed.

(** [*] followed by a literal: the names ending in the literal. *)
Lemma fnmatch_star_literal (lit n : string) :
  literal lit -> fnmatch (String "*"%char lit) n = Str.endswith n lit.
Proof.
  intros Hlit. induction n as [|a n IH]; rewrite fnmatch_star_unfold.
  - rewrite orb_false_r, endswith_nil.
    destruct (String.eqb_spec "" lit) as [<-|Hne]; [done|].
    destruct (fnmatch lit "") eqn:E; [|done].
    apply fnmatch_literal in E; [congruence | done].
  - rewrite endswith_cons, IH.
    destruct (String.eqb_spec (String a n) lit) as [<-|Hne].
    + assert (E : fnmatch (String a n) (String a n) = true) by by apply fnmatch_literal.
      by rewrite E.
    + destruct (fnmatch lit (String a n)) eqn:E; [|done].
      apply fnmatch_literal in E; [congruence | done].
Qed.

(** *** Splitting a joined path *)

Lemma rfind_go_none (c : ascii) (i : nat) (last : option nat) (t : string) :
  Str.contains c t = false -> Str.rfind_go c i last t = last.
Proof.
  revert i last. induction t as [|a t IH]; intros i last H; [done|].
  simpl in *. apply orb_false_iff in H as [Ha Ht]. rewrite Ha. by apply IH.
Qed.

Lemma rfind_go_app (c : ascii) (i : nat) (last : option nat) (a t : string) :
  Str.contains c t = false ->
  Str.rfind_go c i last (a +:+ String c t) = Some (i + String.length a).
Proof.
  intros Ht. revert i last. induction a as [|x a IH]; intros i last; str_simpl; simpl.
  - rewrite Ascii.eqb_refl, rfind_go_none by done. f_equal. lia.
  - rewrite IH. f_equal. lia.
Qed.

Lemma rfind_app (c : ascii) (a t : string) :
  Str.contains c t = false -> Str.rfind c (a +:+ String c t) = Some (String.length a).
Proof. intros H. unfold Str.rfind. by rewrite rfind_go_app. Qed.

Lemma take_app (a b : string) : Str.take (String.length a) (a +:+ b) = a.
Proof. induction a as [|x a IH]; str_simpl; simpl; [by destruct b | by rewrite IH]. Qed.

Lemma drop_app (a b : string) : Str.drop (String.length a) (a +:+ b) = b.
Proof. induction a as [|x a IH]; str_simpl; simpl; [done | by rewrite IH]. Qed.

Lemma rev_app_distr (a b : string) : String.rev (a +:+ b) = String.rev b +:+ String.rev a.
Proof.
  induction a as [|x a IH]; str_simpl.
  - change (String.rev "") with "". by rewrite str_app_nil_r.
  - by rewrite !rev_cons, IH, str_app_assoc.
Qed.

Lemma rev_involutive (a : string) : String.rev (String.rev a) = a.
Proof.
  induction a as [|x a IH]; [done|].
  rewrite rev_cons, rev_app_distr, IH. done.
Qed.

Lemma str_snoc (d : string) : d <> "" -> exists q c, d = q +:+ String c "".
Proof.
  intros Hne. destruct (String.rev d) as [|c r] eqn:E.
  - apply (f_equal String.rev) in E. rewrite rev_involutive in E. by subst.
  - exists (String.rev r), c. by rewrite <- rev_cons, <- E, rev_involutive.
Qed.

Lemma lstrip_cons (f : ascii -> bool) (a : ascii) (s : string) :
  Str.lstrip f (String a s) = if f a then Str.lstrip f s else String a s.
Proof. reflexivity. Qed.

Lemma rstrip_sep (d : string) :
  normal_dir d -> Str.rstrip (Ascii.eqb Path.sep) (d +:+ "/") = d.
Proof.
  intros [Hne Hend]. destruct (str_snoc d Hne) as (q & c & ->).
  assert (Hc : Ascii.eqb Path.sep c = false).
  { destruct (Ascii.eqb_spec Path.sep c) as [<-|]; [|done].
    by rewrite endswith_app in Hend. }
  unfold Str.rstrip. rewrite !rev_app_distr.
  change (String.rev "/") with "/". change (String.rev (String c "")) with (String c "").
  str_simpl. rewrite !lstrip_cons, Ascii.eqb_refl, Hc.
  change (String c (String.rev q)) with (String c "" +:+ String.rev q).
  change (String c "") with (String.rev (String c "")).
  by rewrite <- rev_app_distr, rev_involutive.
Qed.

Lemma join_normal (d n : string) :
  normal_dir d -> Str.startswith n "/" = false -> Path.join d n = d +:+ "/" +:+ n.
Proof.
  intros [Hne Hend] Hn. unfold Path.join. rewrite Hn, Hend.
  by destruct (String.eqb_spec d "").
Qed.

Lemma split_join (d pat : string) :
  normal_dir d -> Str.startswith pat "/" = false -> Str.contains Path.sep pat = false ->
  Path.split (Path.join d pat) = (d, pat).
Proof.
  intros Hd Hs Hc. rewrite join_normal by done.
  unfold Path.split. change ("/" +:+ pat) with (String Path.sep pat).
  rewrite rfind_app by done. cbv zeta iota beta.
  change (String Path.sep pat) with (String Path.sep "" +:+ pat).
  rewrite <- str_app_assoc.
  replace (S (String.length d)) with (String.length (d +:+ String Path.sep ""))
    by (rewrite str_app_length; simpl; lia).
  rewrite take_app, drop_app. change (String Path.sep "") with "/".
  rewrite rstrip_sep by done. destruct Hd as [Hne _].
  by destruct (String.eqb_spec d "").
Qed.

(** *** The entries of a directory *)

Lemma startswith_spec (k pre : string) :
  Str.startswith k pre = true <-> exists n, k = pre +:+ n.
Proof.
  revert k. induction pre as [|a pre IH]; intros k.
  - split; [by exists k | by destruct k].
  - destruct k as [|b k]; simpl.
    + split; [done | intros [n H]; by str_simpl_in H].
    + destruct (Ascii.eqb_spec a b) as [<-|Hne].
      * rewrite IH. split; intros [n H]; exists n; str_simpl; [by rewrite H|].
        str_simpl_in H. by injection H.
      * split; [done | intros [n H]; str_simpl_in H; by injection H].
Qed.

Lemma no_sep_not_absolute (n : string) :
  Str.contains Path.sep n = false -> Str.startswith n "/" = false.
Proof.
  destruct n as [|a n]; [done|]. intros H.
  change (Str.contains Path.sep (String a n))
    with (Ascii.eqb a "/"%char || Str.contains Path.sep n) in H.
  apply orb_false_iff in H as [Ha _].
  change (Str.startswith (String a n) "/")
    with (if Ascii.eqb "/"%char a then Str.startswith n "" else false).
  by rewrite Ascii.eqb_sym, Ha.
Qed.

Lemma child_name_spec (d k n : string) :
  normal_dir d ->
  child_name d k = Some n <->
  k = d +:+ "/" +:+ n /\ n <> "" /\ Str.contains Path.sep n = false.
Proof.
  intros [Hne Hend]. unfold child_name. rewrite Hend.
  destruct (String.eqb_spec d "") as [|_]; [done|]. simpl.
  assert (Hinj : forall m, (d +:+ "/") +:+ m = d +:+ "/" +:+ n -> m = n).
  { intros m H. rewrite str_app_assoc in H. apply (inj (String.app d)) in H.
    str_simpl_in H. by injection H. }
  destruct (Str.startswith k (d +:+ "/")) eqn:Hs.
  - apply startswith_spec in Hs as [m ->]. rewrite drop_app.
    destruct (String.eqb_spec m "") as [->|Hm]; simpl.
    { split; [done | intros (H & Hn & _)]. apply Hinj in H. by subst. }
    destruct (Str.contains Path.sep m) eqn:Hc.
    { split; [done | intros (H & _ & Hn)]. apply Hinj in H. subst. congruence. }
    split.
    + intros H. injection H as <-. by rewrite str_app_assoc.
    + intros (H & _ & _). apply Hinj in H. by subst.
  - split; [done | intros (-> & _ & _)].
    assert (Str.startswith (d +:+ "/" +:+ n) (d +:+ "/") = true); [|congruence].
    apply startswith_spec. exists n. by rewrite str_app_assoc.
Qed.

Lemma elem_of_listdir (fs : filesystem) (d n : string) :
  normal_dir d ->
  n ∈ listdir fs d <->
  n <> "" /\ Str.contains Path.sep n = false /\ is_Some (fs !! (d +:+ "/" +:+ n)).
Proof.
  intros Hd. unfold listdir. rewrite list_elem_of_omap. split.
  - intros (k & Hk & Hc). apply child_name_spec in Hc as (-> & Hn & Hs); [|done].
    split_and!; [done..|]. by apply elem_of_dom, elem_of_elements.
  - intros (Hn & Hs & Hin). exists (d +:+ "/" +:+ n). split.
    + by apply elem_of_elements, elem_of_dom.
    + by apply child_name_spec.
Qed.

(** *** What the scan returns *)

Lemma elem_of_glob_star (fs : filesystem) (d ext p : string) :
  normal_dir d -> literal ext -> Str.contains Path.sep ext = false ->
  p ∈ glob fs (Path.join d (String "*"%char ext)) <->
  exists n, p = d +:+ "/" +:+ n /\ n <> "" /\ Str.contains Path.sep n = false /\
            is_Some (fs !! p) /\ Str.startswith n "." = false /\ Str.endswith n ext = true.
Proof.
  intros Hd Hlit Hsep. unfold glob. rewrite split_join; [|done|done|].
  2:{ simpl. by rewrite Hsep. }
  change (Str.startswith (String "*"%char ext) ".") with false. cbv iota.
  rewrite list_elem_of_fmap. split.
  - intros (n & -> & Hn). apply list_elem_of_filter in Hn as [Hm Hn].
    apply list_elem_of_filter in Hn as [Hh Hn].
    apply elem_of_listdir in Hn as (Hne & Hs & Hin); [|done].
    rewrite fnmatch_star_literal in Hm by done.
    exists n. rewrite join_normal by (try apply no_sep_not_absolute; done). by split_and!.
  - intros (n & -> & Hne & Hs & Hin & Hh & He). exists n. split.
    + by rewrite join_normal by (try apply no_sep_not_absolute; done).
    + apply list_elem_of_filter. split; [by rewrite fnmatch_star_literal|].
      apply list_elem_of_filter. split; [done|]. by apply elem_of_listdir.
Qed.

Lemma elem_of_sorted_lower (files : list string) (p : string) :
  p ∈ sorted_lower (set_iter files) <-> p ∈ files.
Proof.
  unfold sorted_lower, set_iter. rewrite merge_sort_Permutation, elem_of_elements.
  apply elem_of_list_to_set.
Qed.

Lemma list_from_dir_elem (d : string) (w w' : world) (files : list string) :
  normal_dir d ->
  _list_from_dir d w = (Val files, w') ->
  forall p, p ∈ files <->
    exists n, p = d +:+ "/" +:+ n /\ n <> "" /\ Str.contains Path.sep n = false /\
              is_Some (w_fs w' !! p) /\ Str.startswith n "." = false /\
              scanned_suffix n = true.
Proof.
  intros Hd Hrun p.
  assert (Hfiles : files = sorted_lower (set_iter (flat_map (glob (w_fs w')) (patterns_of d)))).
  { rewrite list_from_dir_run in Hrun.
    destruct (makedirs d w) as [[[]|e] w1]; [|done]. by injection Hrun as <- <-. }
  rewrite Hfiles, elem_of_sorted_lower. unfold patterns_of. simpl. rewrite app_nil_r.
  rewrite !elem_of_app, !elem_of_glob_star by done.
  unfold scanned_suffix. split.
  - intros [H|[H|[H|H]]]; destruct H as (n & ? & ? & ? & ? & ? & He); exists n;
      split_and!; try done; rewrite He; by rewrite ?orb_true_r.
  - intros (n & ? & ? & ? & ? & ? & He).
    apply orb_true_iff in He as [He|He]; [|by right; right; right; exists n].
    apply orb_true_iff in He as [He|He]; [|by right; right; left; exists n].
    apply orb_true_iff in He as [He|He]; [by left; exists n | by right; left; exists n].
Qed.

(** X8. The scan of a directory returns exactly the paths [d/n] of the
    entries [n] of [d] that are not hidden and whose name ends in one of
    the spellings [.csv], [.CSV], [.xlsx], [.xls]; the comparison is the
    case-sensitive one of the matcher. *)
Theorem list_from_dir_exact (d : string) (w w' : world) (files : list string) :
  normal_dir d -> has_magic d = false ->
  _list_from_dir d w = (Val files, w') ->
  forall p, p ∈ files <->
    exists n, p = d +:+ "/" +:+ n /\ n <> "" /\ Str.contains Path.sep n = false /\
              is_Some (w_fs w' !! p) /\ Str.startswith n "." = false /\
              scanned_suffix n = true.
Proof. intros Hd _ Hrun. exact (list_from_dir_elem d w w' files Hd Hrun). Qed.

(** *** From the scan to the entries *)

Lemma endswith_app_l (a n suf : string) :
  Str.endswith n suf = true -> Str.endswith (a +:+ n) suf = true.
Proof.
  intros [pre ->]%endswith_spec. apply endswith_spec. exists (a +:+ pre).
  by rewrite str_app_assoc.
Qed.

Lemma endswith_lower (s suf : string) :
  Str.endswith s suf = true -> Str.endswith (Str.lower s) (Str.lower suf) = true.
Proof.
  intros [pre ->]%endswith_spec. rewrite lower_app. apply endswith_app.
Qed.

(** A path the patterns match is one [prepare_step] has a branch for. *)
Lemma scanned_is_classified (pre n : string) :
  scanned_suffix n = true ->
  Str.endswith (Str.lower (pre +:+ n)) ".csv" = true \/
  Str.endswith_any (Str.lower (pre +:+ n)) [".xlsx"; ".xls"] = true.
Proof.
  unfold scanned_suffix, Str.endswith_any. intros H.
  change (existsb (Str.endswith (Str.lower (pre +:+ n))) [".xlsx"; ".xls"])
    with (Str.endswith (Str.lower (pre +:+ n)) ".xlsx" ||
          (Str.endswith (Str.lower (pre +:+ n)) ".xls" || false)).
  rewrite orb_false_r.
  apply orb_true_iff in H as [H|H]; [apply orb_true_iff in H as [H|H];
                                     [apply orb_true_iff in H as [H|H]|]|];
    apply (endswith_app_l pre), endswith_lower in H.
  - by left.
  - by left.
  - right. change (Str.lower ".xlsx") with ".xlsx" in H. by rewrite H.
  - right. change (Str.lower ".xls") with ".xls" in H. rewrite H. apply orb_true_r.
Qed.

Lemma plan_step_classified (fs : filesystem) (p : string) :
  Str.endswith (Str.lower p) ".csv" = true \/
  Str.endswith_any (Str.lower p) [".xlsx"; ".xls"] = true ->
  t_pairs (plan_step fs p) = [(p, Path.name p)] \/
  t_pairs (plan_step fs p) =
    [(Path.join tempdir (Path.stem p +:+ ".csv"), Path.stem p +:+ "_converted.csv")].
Proof.
  intros H. unfold plan_step.
  destruct (Str.endswith (Str.lower p) ".csv"); [by left|].
  destruct H as [H|H]; [done|]. rewrite H.
  destruct (convert_result fs p) as [e|[cp data]] eqn:Hc; [by left|].
  apply convert_result_ok in Hc as (-> & _). by right.
Qed.

(** X9. A directory scan followed by the loop: every path the scan returns
    gives exactly one entry, in the scan's order, either the path itself
    under its file name or its conversion under the [_converted] name.
    (A single configured file of another extension is dropped instead.) *)
Theorem scan_then_prepare (w w' : world) (ps : list (string * string)) (ts : list string) :
  normal_dir (CSV_TARGET cfg) -> has_magic (CSV_TARGET cfg) = false ->
  is_file (w_fs w) (CSV_TARGET cfg) = false ->
  prepare_files w = (Val (ps, ts), w') ->
  exists files w1,
    find_sources w = (Val files, w1) /\
    Forall2 (fun p e =>
               e = (p, Path.name p) \/
               e = (Path.join tempdir (Path.stem p +:+ ".csv"),
                    Path.stem p +:+ "_converted.csv")) files ps.
Proof.
  intros Hd Hm Hf Hrun. unfold prepare_files, bind in Hrun.
  destruct (find_sources w) as [[files|e] w1] eqn:Hfind; [|done].
  exists files, w1. split; [done|].
  rewrite prepare_run in Hrun. injection Hrun as <- _ _.
  assert (Hall : Forall (fun p => Str.endswith (Str.lower p) ".csv" = true \/
                                  Str.endswith_any (Str.lower p) [".xlsx"; ".xls"] = true) files).
  { unfold find_sources, bind, isfile in Hfind. rewrite Hf in Hfind.
    apply Forall_forall. intros p Hp.
    apply (list_from_dir_elem _ _ _ _ Hd Hfind) in Hp
      as (n & -> & _ & _ & _ & _ & Hs).
    rewrite <- str_app_assoc. by apply scanned_is_classified. }
  clear Hfind. unfold plan_pairs. induction Hall as [|p files Hp _ IH]; [constructor|].
  simpl. destruct (plan_step_classified (w_fs w1) p Hp) as [-> | ->]; simpl.
  - constructor; [by left | exact IH].
  - constructor; [by right | exact IH].
Qed.

(** *** The archive, whatever the entries *)

Lemma set_fs_insert_id (w : world) (k : string) (x : node) :
  w_fs w !! k = Some x -> set_fs (insert k x) w = w.
Proof. intros H. destruct w as [fs out box]. unfold set_fs. simpl in *. by rewrite insert_id. Qed.

Lemma set_fs_insert_insert (w : world) (k : string) (x y : node) :
  set_fs (insert k y) (set_fs (insert k x) w) = set_fs (insert k y) w.
Proof. unfold set_fs. simpl. by rewrite insert_insert_eq. Qed.

Lemma zip_step_self (name : string) members (x : bytes) (w : world) :
  zip_step (zip_path, name) members (set_fs (insert zip_path (File x)) w) =
  match zip_refuses zip_path with
  | Some e => (Exn e, set_fs (insert zip_path (File x)) w)
  | None =>
      (Val (members ++ [(name, x)]),
       set_fs (insert zip_path (File (zip_partial (members ++ [(name, x)])))) w)
  end.
Proof.
  unfold zip_step, bind, isfile, is_file, read_file, write_file, ret, raise, set_fs. simpl.
  rewrite lookup_insert_eq. destruct (zip_refuses zip_path); [done|]. simpl.
  repeat (rewrite lookup_insert_eq; simpl). by rewrite insert_insert_eq.
Qed.

(** Once the archive file is open the loop changes nothing but that
    file, whatever the entries are and however it ends. *)
Lemma zip_loop_total (pairs : list (string * string)) members (x : bytes) (w : world) :
  exists r x',
    for_each_keep pairs zip_step members (set_fs (insert zip_path (File x)) w) =
    (Val r, set_fs (insert zip_path (File x')) w).
Proof.
  revert members x. induction pairs as [|[path name] pairs IH]; intros members x.
  - by exists (members, None), x.
  - rewrite for_each_keep_cons. destruct (decide (path = zip_path)) as [->|Hne].
    + rewrite zip_step_self. destruct (zip_refuses zip_path); [by eexists _, _ | apply IH].
    + rewrite zip_step_run by done.
      destruct (w_fs w !! path) as [[data|]|]; [|apply IH..].
      destruct (zip_refuses path); [by eexists _, _ | apply IH].
Qed.

(** X10. [zip_pairs] changes the archive path and no other.  A directory
    there makes it raise [IsADirectoryError] before anything is written.
    When zipfile refuses an entry, the entries before it being taken, that
    exception comes out of [zip_pairs] after the archive has been closed
    over the members added so far: the archive file is left on disk. *)
Theorem zip_pairs_failures (pairs : list (string * string)) (w : world) :
  (w_fs w !! zip_path = Some Dir ->
   zip_pairs pairs w = (Exn (IsADirectoryError zip_path), w)) /\
  (w_fs w !! zip_path <> Some Dir ->
   exists r data, zip_pairs pairs w = (r, set_fs (insert zip_path (File data)) w)) /\
  (forall before after path name e,
     w_fs w !! zip_path <> Some Dir ->
     pairs = before ++ (path, name) :: after ->
     Forall (fun e => e.1 <> zip_path) before -> accepted (w_fs w) before ->
     path <> zip_path -> is_file (w_fs w) path = true -> zip_refuses path = Some e ->
     zip_pairs pairs w =
       (Exn e,
        set_fs (insert zip_path (File (zip_encode (members_of (w_fs w) before)))) w)).
Proof.
  assert (Hopen : w_fs w !! zip_path <> Some Dir ->
            write_file zip_path (zip_partial []) w =
            (Val tt, set_fs (insert zip_path (File (zip_partial []))) w)).
  { intros Hd. unfold write_file. by destruct (w_fs w !! zip_path) as [[?|]|]. }
  assert (Hclose : forall x y,
            write_file zip_path y (set_fs (insert zip_path (File x)) w) =
            (Val tt, set_fs (insert zip_path (File y)) w)).
  { intros x y. unfold write_file. simpl.
    by rewrite lookup_insert_eq, set_fs_insert_insert. }
  split_and!.
  - intros Hd. unfold zip_pairs, bind, write_file. by rewrite Hd.
  - intros Hd. unfold zip_pairs, bind. rewrite (Hopen Hd).
    destruct (zip_loop_total pairs [] (zip_partial []) w) as ([ms f] & x' & ->).
    rewrite Hclose. destruct f; by eexists _, _.
  - intros before after path name e Hd -> Hne Hacc Hp Hf Hr.
    unfold zip_pairs, bind. rewrite (Hopen Hd), for_each_keep_app.
    destruct (zip_loop_run before [] (zip_partial []) w Hne Hacc) as [x' ->].
    rewrite for_each_keep_cons, zip_step_run by done.
    unfold is_file in Hf. destruct (w_fs w !! path) as [[data|]|]; [|done..].
    rewrite Hr. simpl. by rewrite Hclose.
Qed.

(** *** From the entries to the archive *)

Lemma zip_path_not_spreadsheet :
  Str.endswith (Str.lower zip_path) ".csv" = false /\
  Str.endswith_any (Str.lower zip_path) [".xlsx"; ".xls"] = false.
Proof.
  assert (Hz : exists x, Str.lower zip_path = x +:+ ".zip").
  { unfold zip_path. destruct (join_suffix tempdir "test_portfolios.zip") as [pre ->].
    rewrite lower_app. exists (Str.lower pre +:+ "test_portfolios").
    by rewrite str_app_assoc. }
  destruct Hz as [x Hx].
  assert (Hno : forall suf, Str.endswith (Str.lower zip_path) suf = true ->
                  String.length ".zip" <= String.length suf ->
                  exists z, suf = z +:+ ".zip").
  { intros suf [y Hy]%endswith_spec Hlen. rewrite Hx in Hy.
    by apply suffix_of_suffix in Hy. }
  assert (Hcsv : Str.endswith (Str.lower zip_path) ".csv" = false).
  { destruct (Str.endswith (Str.lower zip_path) ".csv") eqn:E; [|done].
    apply Hno in E as [z Hz]; [|simpl; lia].
    repeat (destruct z as [|? z]; str_simpl_in Hz; [discriminate|injection Hz as _ Hz]).
    destruct z; discriminate. }
  split; [done|]. unfold Str.endswith_any. simpl. rewrite orb_false_r.
  apply orb_false_iff. split.
  - destruct (Str.endswith (Str.lower zip_path) ".xlsx") eqn:E; [|done].
    apply Hno in E as [z Hz]; [|simpl; lia].
    repeat (destruct z as [|? z]; str_simpl_in Hz; [discriminate|injection Hz as _ Hz]).
    destruct z; discriminate.
  - destruct (Str.endswith (Str.lower zip_path) ".xls") eqn:E; [|done].
    apply Hno in E as [z Hz]; [|simpl; lia].
    repeat (destruct z as [|? z]; str_simpl_in Hz; [discriminate|injection Hz as _ Hz]).
    destruct z; discriminate.
Qed.

Lemma plan_pairs_not_zip_path (fs : filesystem) (src : list string) :
  Forall (fun e => e.1 <> zip_path) (plan_pairs fs src).
Proof.
  destruct zip_path_not_spreadsheet as [Hc Hx].
  unfold plan_pairs. induction src as [|p src IH]; [constructor|].
  simpl. apply Forall_app. split; [|done].
  unfold plan_step.
  destruct (Str.endswith (Str.lower p) ".csv") eqn:Hp.
  { constructor; [|done]. simpl. intros ->. congruence. }
  destruct (Str.endswith_any (Str.lower p) [".xlsx"; ".xls"]) eqn:Hq; [|constructor].
  destruct (convert_result fs p) as [e|[cp data]] eqn:Hr.
  - constructor; [|done]. simpl. intros ->. congruence.
  - apply convert_result_ok in Hr as (-> & _). constructor; [|done]. simpl.
    intros E. pose proof (out_path_csv p) as Ho. rewrite E in Ho. congruence.
Qed.

Lemma plan_step_temp_pair (fs : filesystem) (p t : string) :
  t ∈ t_temps (plan_step fs p) -> exists name, (t, name) ∈ t_pairs (plan_step fs p).
Proof.
  unfold plan_step.
  destruct (Str.endswith _ _); [by intros ?%elem_of_nil|].
  destruct (Str.endswith_any _ _); [|by intros ?%elem_of_nil].
  destruct (convert_result fs p) as [?|[cp ?]]; [by intros ?%elem_of_nil|].
  simpl. intros ->%list_elem_of_singleton. eexists. by left.
Qed.

Lemma plan_temps_are_members (fs fs' : filesystem) (src : list string) (t : string) :
  (forall k, k ∈ plan_temps fs src -> is_file fs' k = true) ->
  t ∈ plan_temps fs src ->
  exists name data, (name, data) ∈ members_of fs' (plan_pairs fs src) /\
                    fs' !! t = Some (File data).
Proof.
  intros Hfiles Ht.
  assert (Hin : exists name, (t, name) ∈ plan_pairs fs src).
  { clear Hfiles. unfold plan_temps, plan_pairs in *.
    induction src as [|p src IH]; [by apply elem_of_nil in Ht|].
    change (t ∈ t_temps (plan_step fs p) ++
                flat_map (fun p => t_temps (plan_step fs p)) src) in Ht.
    change (exists name, (t, name) ∈ t_pairs (plan_step fs p) ++
                flat_map (fun p => t_pairs (plan_step fs p)) src).
    apply elem_of_app in Ht as [Ht|Ht].
    - destruct (plan_step_temp_pair fs p t Ht) as [name Hn].
      exists name. apply elem_of_app. by left.
    - destruct (IH Ht) as [name Hn]. exists name. apply elem_of_app. by right. }
  destruct Hin as [name Hin]. specialize (Hfiles t Ht). unfold is_file in Hfiles.
  destruct (fs' !! t) as [[data|]|] eqn:Hl; [|done..].
  exists name, data. split; [|done].
  unfold members_of. apply list_elem_of_omap. exists (t, name). split; [done|].
  simpl. by rewrite Hl.
Qed.

(** X11. Packing what [prepare] returned: no entry can name the archive
    itself, so with the scratch path free of a directory and every entry
    one zipfile takes, [zip_pairs] returns, the archive holds exactly the
    entries that are regular files, and every converted file recorded in
    temps is among them. *)
Theorem prepare_then_pack (src : list string) (w w1 : world)
  (ps : list (string * string)) (ts : list string) :
  prepare src w = (Val (ps, ts), w1) ->
  w_fs w1 !! zip_path <> Some Dir ->
  accepted (w_fs w1) ps ->
  zip_pairs ps w1 =
    (Val zip_path, set_fs (insert zip_path (File (zip_encode (members_of (w_fs w1) ps)))) w1) /\
  (forall t, t ∈ ts ->
     exists name data, (name, data) ∈ members_of (w_fs w1) ps /\
                       w_fs w1 !! t = Some (File data)).
Proof.
  rewrite prepare_run. intros H Hnd Hacc. injection H as <- <- Hw. split.
  - unfold zip_pairs, bind.
    assert (Hopen : write_file zip_path (zip_partial []) w1 =
                    (Val tt, set_fs (insert zip_path (File (zip_partial []))) w1)).
    { unfold write_file. by destruct (w_fs w1 !! zip_path) as [[?|]|]. }
    rewrite Hopen.
    destruct (zip_loop_run _ [] (zip_partial []) w1
                (plan_pairs_not_zip_path (w_fs w) src) Hacc) as [x' ->].
    unfold write_file, ret. simpl. by rewrite lookup_insert_eq, set_fs_insert_insert.
  - intros t Ht. apply plan_temps_are_members; [|done].
    intros k Hk. rewrite <- Hw. simpl. apply apply_writes_is_file.
    by rewrite plan_writes_keys.
Qed.

(** *** What no handler touches *)

Section Respects.

Variable R : world -> world -> Prop.
Hypothesis R_refl : forall w, R w w.
Hypothesis R_trans : forall w1 w2 w3, R w1 w2 -> R w2 w3 -> R w1 w3.

Lemma respects_ret {A} (a : A) : respects R (ret a).
Proof. intros w. apply R_refl. Qed.

Lemma respects_raise {A} (e : exn) : respects R (@raise A e).
Proof. intros w. apply R_refl. Qed.

Lemma respects_bind_post {A B} (Q : A -> Prop) (m : M A) (k : A -> M B) :
  returns Q m -> respects R m -> (forall a, Q a -> respects R (k a)) ->
  respects R (bind m k).
Proof.
  intros HQ Hm Hk w. unfold bind. specialize (Hm w).
  destruct (m w) as [[a|e] w'] eqn:E; [|done].
  eapply R_trans; [exact Hm|]. apply (Hk a). by eapply HQ.
Qed.

Lemma respects_bind {A B} (m : M A) (k : A -> M B) :
  respects R m -> (forall a, respects R (k a)) -> respects R (bind m k).
Proof.
  intros Hm Hk. apply (respects_bind_post (fun _ => True)); [done | done | auto].
Qed.

Lemma respects_try_except {A} (body : M A) (handler : exn -> M A) :
  respects R body -> (forall e, respects R (handler e)) ->
  respects R (try_except body handler).
Proof.
  intros Hb Hh w. unfold try_except. specialize (Hb w).
  destruct (body w) as [[a|e] w']; [done|].
  eapply R_trans; [exact Hb | apply Hh].
Qed.

Lemma respects_try_finally {A} (body : M A) (final : M unit) :
  respects R body -> respects R final -> respects R (try_finally body final).
Proof.
  intros Hb Hf w. unfold try_finally. specialize (Hb w).
  destruct (body w) as [r w']. specialize (Hf w').
  destruct (final w') as [[[]|e] w'']; simpl in *; by eapply R_trans.
Qed.

Lemma respects_for_each {A S} (l : list A) (body : A -> S -> M S) (acc : S) :
  (forall x acc, x ∈ l -> respects R (body x acc)) ->
  respects R (for_each l body acc).
Proof.
  revert acc. induction l as [|x l IH]; intros acc Hb; [apply respects_ret|].
  change (for_each (x :: l) body acc) with (bind (body x acc) (for_each l body)).
  apply respects_bind; [apply Hb; by left|].
  intros acc'. apply IH. intros y acc'' Hy. apply Hb. by right.
Qed.

Lemma respects_for_each_keep {A S} (l : list A) (body : A -> S -> M S) (acc : S) :
  (forall x acc, x ∈ l -> respects R (body x acc)) ->
  respects R (for_each_keep l body acc).
Proof.
  revert acc. induction l as [|x l IH]; intros acc Hb; [apply respects_ret|].
  intros w. rewrite for_each_keep_cons.
  pose proof (Hb x acc ltac:(by left) w) as Hx.
  destruct (body x acc w) as [[acc'|e] w']; simpl in *; [|done].
  eapply R_trans; [exact Hx|]. apply IH. intros y acc'' Hy. apply Hb. by right.
Qed.

End Respects.

Lemma same_kept_refl (w : world) : same_kept w w.
Proof. by intros p _. Qed.

Lemma same_kept_trans (w1 w2 w3 : world) : same_kept w1 w2 -> same_kept w2 w3 -> same_kept w1 w3.
Proof. intros H1 H2 p Hp. by rewrite H2, H1. Qed.

Lemma outbox_grows_refl (w : world) : outbox_grows w w.
Proof. exists []. by rewrite app_nil_r. Qed.

Lemma outbox_grows_trans (w1 w2 w3 : world) :
  outbox_grows w1 w2 -> outbox_grows w2 w3 -> outbox_grows w1 w3.
Proof. intros [m1 H1] [m2 H2]. exists (m1 ++ m2). by rewrite H2, H1, app_assoc. Qed.

(** The two relations on the primitives. *)

Ltac prim_unfold :=
  unfold respects, isfile, read_file, write_file, os_remove, makedirs, print, send, ret.

Lemma kept_isfile (p : string) : respects same_kept (isfile p).
Proof. intros w. apply same_kept_refl. Qed.

Lemma kept_read_file (p : string) : respects same_kept (read_file p).
Proof. prim_unfold. intros w. destruct (w_fs w !! p) as [[?|]|]; apply same_kept_refl. Qed.

Lemma kept_print (line : string) : respects same_kept (print line).
Proof. by intros w p _. Qed.

Lemma kept_send (msg : outgoing) : respects same_kept (send msg).
Proof. prim_unfold. intros w. by destruct (transport _ _); intros p _. Qed.

Lemma kept_write_file (p : string) (data : bytes) :
  ~ kept p -> respects same_kept (write_file p data).
Proof.
  prim_unfold. intros Hp w. destruct (w_fs w !! p) as [[?|]|]; intros q Hq; simpl; try done;
    rewrite lookup_insert_ne; try done; by intros ->.
Qed.

Lemma kept_os_remove (p : string) : ~ kept p -> respects same_kept (os_remove p).
Proof.
  prim_unfold. intros Hp w. destruct (w_fs w !! p) as [[?|]|]; intros q Hq; simpl; try done.
  rewrite lookup_delete_ne; [done | by intros ->].
Qed.

Lemma kept_makedirs : respects same_kept (makedirs (CSV_TARGET cfg)).
Proof.
  intros w p (_ & _ & Hp). unfold makedirs.
  destruct (makedirs_from_frame "" (Str.split Path.sep (CSV_TARGET cfg)) w) as (_ & _ & H).
  by destruct (H p) as [?|(? & _)].
Qed.

Lemma grows_of_outbox_eq {A} (m : M A) :
  (forall w, w_outbox (m w).2 = w_outbox w) -> respects outbox_grows m.
Proof. intros H w. exists []. by rewrite H, app_nil_r. Qed.

Lemma grows_isfile (p : string) : respects outbox_grows (isfile p).
Proof. by apply grows_of_outbox_eq. Qed.

Lemma grows_read_file (p : string) : respects outbox_grows (read_file p).
Proof.
  apply grows_of_outbox_eq. intros w. unfold read_file. by destruct (w_fs w !! p) as [[?|]|].
Qed.

Lemma grows_print (line : string) : respects outbox_grows (print line).
Proof. by apply grows_of_outbox_eq. Qed.

Lemma grows_send (msg : outgoing) : respects outbox_grows (send msg).
Proof. intros w. exists [msg]. unfold send. by destruct (transport _ _). Qed.

Lemma grows_write_file (p : string) (data : bytes) : respects outbox_grows (write_file p data).
Proof.
  apply grows_of_outbox_eq. intros w. unfold write_file. by destruct (w_fs w !! p) as [[?|]|].
Qed.

Lemma grows_os_remove (p : string) : respects outbox_grows (os_remove p).
Proof.
  apply grows_of_outbox_eq. intros w. unfold os_remove. by destruct (w_fs w !! p) as [[?|]|].
Qed.

Lemma grows_makedirs (d : string) : respects outbox_grows (makedirs d).
Proof.
  apply grows_of_outbox_eq. intros w. unfold makedirs.
  by destruct (makedirs_from_frame "" (Str.split Path.sep d) w) as (_ & H & _).
Qed.

(** What the file helpers return. *)

Lemma not_kept_zip_path : ~ kept zip_path.
Proof. by intros (_ & H & _). Qed.

Lemma not_kept_scratch (p : string) : scratch_csv p -> ~ kept p.
Proof. by intros H (Hn & _). Qed.

Lemma split_go_sep_free (c : ascii) (cur s : string) :
  Str.contains c (String.rev cur) = false ->
  Forall (fun x => Str.contains c x = false) (Str.split_go c cur s).
Proof.
  revert cur. induction s as [|a s IH]; intros cur Hcur.
  - by constructor.
  - rewrite split_go_cons. destruct (Ascii.eqb_spec a c) as [->|Hne].
    + constructor; [done | by apply IH].
    + apply IH. rewrite rev_cons, contains_app, Hcur. simpl.
      rewrite orb_false_r. by apply Ascii.eqb_neq.
Qed.

Lemma contains_take (c : ascii) (n : nat) (s : string) :
  Str.contains c s = false -> Str.contains c (Str.take n s) = false.
Proof.
  revert n. induction s as [|a s IH]; intros [|n] H; try done.
  simpl in *. apply orb_false_iff in H as [-> H]. by rewrite IH.
Qed.

(** A stem holds no separator. *)
Lemma stem_sep_free (p : string) : Str.contains Path.sep (Path.stem p) = false.
Proof.
  assert (Hn : Str.contains Path.sep (Path.name p) = false).
  { unfold Path.name, Path.parts.
    pose proof (split_go_sep_free Path.sep "" p eq_refl) as Hall.
    fold (Str.split Path.sep p) in Hall.
    assert (Hf : Forall (fun x => Str.contains Path.sep x = false)
                   (filter (fun x => x <> "" /\ x <> ".") (Str.split Path.sep p))).
    { apply Forall_forall. intros x [_ Hx]%list_elem_of_filter.
      by apply (proj1 (Forall_forall _ _) Hall). }
    induction Hf as [|x l Hx Hl IH]; [done|].
    destruct l as [|y l]; [done|]. apply IH. }
  unfold Path.stem, Path.stem_of_name.
  destruct (Str.rfind "." (Path.name p)) as [i|]; [|done].
  destruct (_ && _); [|done]. by apply contains_take.
Qed.

Lemma prepare_files_returns :
  returns (fun r => Forall scratch_csv r.2) prepare_files.
Proof.
  intros w [ps ts] w' H. unfold prepare_files, bind in H.
  destruct (find_sources w) as [[src|e] w1]; [|done].
  rewrite prepare_run in H. injection H as _ <- _. simpl.
  unfold plan_temps. induction src as [|p src IH]; [constructor|].
  simpl. apply Forall_app. split; [|done].
  unfold plan_step. destruct (Str.endswith _ _); [constructor|].
  destruct (Str.endswith_any _ _); [|constructor].
  destruct (convert_result (w_fs w1) p) as [e|[cp data]] eqn:Hc; [constructor|].
  apply convert_result_ok in Hc as (-> & _). constructor; [|constructor].
  exists (Path.stem p). split; [apply stem_sep_free | done].
Qed.

Lemma zip_pairs_returns (pairs : list (string * string)) :
  returns (fun zp => zp = zip_path) (zip_pairs pairs).
Proof.
  intros w zp w' H. unfold zip_pairs, bind in H.
  destruct (write_file zip_path (zip_partial []) w) as [[[]|e] w1]; [|done].
  destruct (for_each_keep pairs zip_step [] w1) as [[[ms f]|e] w2]; [|done].
  destruct (write_file zip_path (zip_encode ms) w2) as [[[]|e] w3]; [|done].
  destruct f; [done|]. by injection H as <- _.
Qed.

(** The two relations on the program. *)

Section Program.

Variable R : world -> world -> Prop.
Hypothesis R_refl : forall w, R w w.
Hypothesis R_trans : forall w1 w2 w3, R w1 w2 -> R w2 w3 -> R w1 w3.
Hypothesis R_isfile : forall p, respects R (isfile p).
Hypothesis R_read_file : forall p, respects R (read_file p).
Hypothesis R_print : forall line, respects R (print line).
Hypothesis R_send : forall msg, respects R (send msg).
Hypothesis R_makedirs : respects R (makedirs (CSV_TARGET cfg)).
Hypothesis R_write_zip : forall data, respects R (write_file zip_path data).
Hypothesis R_write_scratch : forall p data, scratch_csv p -> respects R (write_file p data).
Hypothesis R_remove_zip : respects R (os_remove zip_path).
Hypothesis R_remove_scratch : forall p, scratch_csv p -> respects R (os_remove p).

Local Ltac rret := apply (respects_ret R R_refl).
Local Ltac rraise := apply (respects_raise R R_refl).
Local Ltac rbind := apply (respects_bind R R_trans).
Local Ltac rexcept := apply (respects_try_except R R_trans).
Local Ltac rfinally := apply (respects_try_finally R R_trans).
Local Ltac reach := apply (respects_for_each R R_refl R_trans).

Lemma R_find_sources : respects R find_sources.
Proof.
  unfold find_sources. rbind; [apply R_isfile|]. intros [|]; [rret|].
  unfold _list_from_dir. rbind; [apply R_makedirs|]. intros _.
  rbind; [|intros; rret].
  reach. intros p files _ w. apply R_refl.
Qed.

Lemma R_convert (p : string) : respects R (convert_excel_to_csv p).
Proof.
  unfold convert_excel_to_csv, pd_read_excel. rbind.
  { rbind; [apply R_read_file|]. intros data.
    destruct (read_excel data); [rraise | rret]. }
  intros df. rbind; [|intros; rret].
  apply R_write_scratch. exists (Path.stem p). split; [apply stem_sep_free | done].
Qed.

Lemma R_prepare (src : list string) : respects R (prepare src).
Proof.
  unfold prepare. reach. intros p [pairs temps] _.
  unfold prepare_step.
  destruct (Str.endswith _ _); [rret|].
  destruct (Str.endswith_any _ _); [|rret].
  rexcept.
  - rbind; [apply R_convert | intros; rret].
  - intros e. rbind; [apply R_print | intros; rret].
Qed.

Lemma R_prepare_files : respects R prepare_files.
Proof. unfold prepare_files. rbind; [apply R_find_sources | apply R_prepare]. Qed.

Lemma R_zip_pairs (pairs : list (string * string)) : respects R (zip_pairs pairs).
Proof.
  unfold zip_pairs. rbind; [apply R_write_zip|]. intros _. rbind.
  - apply (respects_for_each_keep R R_refl R_trans).
    intros [path name] members _. unfold zip_step.
    rbind; [apply R_isfile|]. intros [|]; [|rret].
    destruct (zip_refuses path); [rraise|].
    rbind; [apply R_read_file|]. intros data.
    rbind; [apply R_write_zip | intros; rret].
  - intros [ms f]. rbind; [apply R_write_zip|]. intros _. destruct f; [rraise | rret].
Qed.

Lemma R_remove_temps (temps : list string) :
  Forall scratch_csv temps -> respects R (remove_temps temps).
Proof.
  intros Hts. unfold remove_temps. reach.
  intros t [] Ht. rexcept; [|intros; rret].
  apply R_remove_scratch. by eapply Forall_forall in Hts.
Qed.

Lemma R_reply_document_from (path name caption : string) :
  respects R (reply_document_from path name caption).
Proof. unfold reply_document_from. rbind; [apply R_read_file | intros; apply R_send]. Qed.

Lemma R_target_hint : respects R target_hint.
Proof. unfold target_hint. rbind; [apply R_isfile | intros; rret]. Qed.

Lemma send_zip_split : send_zip = (send_link ;; zip_after_link).
Proof. reflexivity. Qed.

Lemma send_files_split : send_files = (send_link ;; files_after_link).
Proof. reflexivity. Qed.

Lemma R_zip_after_link : respects R zip_after_link.
Proof.
  unfold zip_after_link.
  apply (respects_bind_post R R_trans (fun r => Forall scratch_csv r.2));
    [apply prepare_files_returns | apply R_prepare_files |].
  intros [ps ts] Hts. simpl in Hts.
  rbind; [apply R_target_hint|]. intros hint.
  destruct ps as [|pr ps]; [apply R_send|].
  apply (respects_bind_post R R_trans (fun zp => zp = zip_path));
    [apply zip_pairs_returns | apply R_zip_pairs |].
  intros zp ->. rfinally; [apply R_reply_document_from|].
  rbind.
  - rexcept; [apply R_remove_zip | intros; rret].
  - intros _. by apply R_remove_temps.
Qed.

Lemma R_files_after_link : respects R files_after_link.
Proof.
  unfold files_after_link.
  apply (respects_bind_post R R_trans (fun r => Forall scratch_csv r.2));
    [apply prepare_files_returns | apply R_prepare_files |].
  intros [ps ts] Hts. simpl in Hts.
  rbind; [apply R_target_hint|]. intros hint.
  destruct ps as [|pr ps]; [apply R_send|].
  rfinally; [|by apply R_remove_temps].
  reach. intros [path name] [] _. apply R_reply_document_from.
Qed.

Lemma R_send_zip : respects R send_zip.
Proof.
  rewrite send_zip_split. rbind; [apply R_send | intros; apply R_zip_after_link].
Qed.

Lemma R_send_files : respects R send_files.
Proof.
  rewrite send_files_split. rbind; [apply R_send | intros; apply R_files_after_link].
Qed.

Lemma R_on_text (text : string) : respects R (on_text text).
Proof. unfold on_text. destruct (String.eqb _ _); [apply R_send_zip | apply R_send]. Qed.

End Program.

Lemma not_scratch_csv (p : string) : Str.endswith p ".csv" = false -> ~ scratch_csv p.
Proof.
  intros H (s & _ & ->). destruct (join_suffix tempdir (s +:+ ".csv")) as [pre E].
  rewrite E, <- str_app_assoc, endswith_app in H. done.
Qed.

(** A scratch path lies in the scratch directory. *)
Lemma scratch_csv_below (p : string) : scratch_csv p -> Str.startswith p tempdir = true.
Proof.
  intros (s & Hs & ->). unfold Path.join.
  destruct (Str.startswith (s +:+ ".csv") "/") eqn:Hsl.
  { destruct s as [|a s]; [done|]. apply startswith_spec in Hsl as [n Hn].
    str_simpl_in Hn. injection Hn as -> _. simpl in Hs. discriminate. }
  apply startswith_spec. destruct (_ || _); [by eexists|].
  exists ("/" +:+ s +:+ ".csv"). done.
Qed.

(** X12. No handler changes a path other than the directories on the way
    to the configured path, the archive's path and the paths of the form
    the conversion writes, a stem and [.csv] directly in the scratch
    directory: whatever the filesystem, the message and the transport
    do, every other file and directory is after the run what it was
    before. *)
Theorem handlers_keep_files (message_text : string) (w : world) (p : string) :
  ~ scratch_csv p -> p <> zip_path -> p ∉ ancestors (CSV_TARGET cfg) ->
  w_fs (send_zip w).2 !! p = w_fs w !! p /\
  w_fs (send_files w).2 !! p = w_fs w !! p /\
  w_fs (start_cmd w).2 !! p = w_fs w !! p /\
  w_fs (on_text message_text w).2 !! p = w_fs w !! p.
Proof.
  intros H1 H2 H3. assert (Hk : kept p) by done.
  assert (Hall : forall m : M unit,
            (forall R, (forall w, R w w) -> (forall w1 w2 w3, R w1 w2 -> R w2 w3 -> R w1 w3) ->
               (forall p, respects R (isfile p)) -> (forall p, respects R (read_file p)) ->
               (forall l, respects R (print l)) -> (forall m, respects R (send m)) ->
               respects R (makedirs (CSV_TARGET cfg)) ->
               (forall d, respects R (write_file zip_path d)) ->
               (forall p d, scratch_csv p -> respects R (write_file p d)) ->
               respects R (os_remove zip_path) ->
               (forall p, scratch_csv p -> respects R (os_remove p)) ->
               respects R m) ->
            w_fs (m w).2 !! p = w_fs w !! p).
  { intros m Hm. apply (Hm same_kept); auto using same_kept_refl, kept_isfile, kept_read_file,
      kept_print, kept_send.
    - apply same_kept_trans.
    - apply kept_makedirs.
    - intros d. apply kept_write_file, not_kept_zip_path.
    - intros q d Hq. by apply kept_write_file, not_kept_scratch.
    - apply kept_os_remove, not_kept_zip_path.
    - intros q Hq. by apply kept_os_remove, not_kept_scratch. }
  split_and!; apply Hall; intros R; intros.
  - by apply R_send_zip.
  - by apply R_send_files.
  - by apply R_send_zip.
  - by apply R_on_text.
Qed.

(** X13. The first call a command handler makes on the transport is the link
    message, and no earlier call is ever dropped: the outbox after the
    run is the outbox before, then the link, then whatever followed. *)
Theorem link_is_sent_first (w : world) :
  (exists more, w_outbox (send_zip w).2 = w_outbox w ++ link_message :: more) /\
  (exists more, w_outbox (send_files w).2 = w_outbox w ++ link_message :: more) /\
  (exists more, w_outbox (start_cmd w).2 = w_outbox w ++ link_message :: more).
Proof.
  assert (Hall : forall rest : M unit,
            respects outbox_grows rest ->
            exists more, w_outbox ((send_link ;; rest) w).2 = w_outbox w ++ link_message :: more).
  { intros rest Hr. unfold bind, send_link. rewrite send_run.
    destruct (transport (w_outbox w) link_message).
    - by exists [].
    - destruct (Hr (sent link_message w)) as [more Hm]. exists more.
      rewrite Hm. simpl. by rewrite <- app_assoc. }
  assert (Hz : respects outbox_grows zip_after_link).
  { apply R_zip_after_link; auto using outbox_grows_refl, grows_isfile, grows_read_file,
      grows_print, grows_send, grows_makedirs, grows_write_file, grows_os_remove.
    apply outbox_grows_trans. }
  assert (Hf : respects outbox_grows files_after_link).
  { apply R_files_after_link; auto using outbox_grows_refl, grows_isfile, grows_read_file,
      grows_print, grows_send, grows_makedirs, grows_write_file, grows_os_remove.
    apply outbox_grows_trans. }
  split_and!; [apply (Hall _ Hz) | apply (Hall _ Hf) | apply (Hall _ Hz)].
Qed.

(** *** What the handlers transmit *)

Lemma zip_pairs_run (pairs : list (string * string)) (w : world) :
  w_fs w !! zip_path <> Some Dir ->
  Forall (fun e => e.1 <> zip_path) pairs ->
  accepted (w_fs w) pairs ->
  zip_pairs pairs w =
    (Val zip_path, set_fs (insert zip_path (File (zip_encode (members_of (w_fs w) pairs)))) w).
Proof.
  intros Hnd Hne Hacc. unfold zip_pairs, bind.
  assert (Hopen : write_file zip_path (zip_partial []) w =
                  (Val tt, set_fs (insert zip_path (File (zip_partial []))) w)).
  { unfold write_file. by destruct (w_fs w !! zip_path) as [[?|]|]. }
  rewrite Hopen. destruct (zip_loop_run pairs [] (zip_partial []) w Hne Hacc) as [x' ->].
  unfold write_file, ret. simpl. by rewrite lookup_insert_eq, set_fs_insert_insert.
Qed.

Lemma prepare_files_not_zip_path (w w1 : world) ps ts :
  prepare_files w = (Val (ps, ts), w1) -> Forall (fun e => e.1 <> zip_path) ps.
Proof.
  unfold prepare_files, bind. destruct (find_sources w) as [[src|e] w0]; [|done].
  rewrite prepare_run. intros H. injection H as <- _ _. apply plan_pairs_not_zip_path.
Qed.

Lemma target_hint_run (w : world) : exists hint, target_hint w = (Val hint, w).
Proof. unfold target_hint, bind, isfile, ret. by eexists. Qed.

Lemma reply_document_run (path name caption : string) (data : bytes) (w : world) :
  w_fs w !! path = Some (File data) ->
  reply_document_from path name caption w =
  (match transport (w_outbox w) (ReplyDocument data name caption) with
   | None => Val tt | Some e => Exn e end,
   sent (ReplyDocument data name caption) w).
Proof. intros H. unfold reply_document_from, bind, read_file. by rewrite H, send_run. Qed.

(** X14. [send_zip] on its main path: the link is delivered, there is at
    least one entry, no directory sits at the archive path and zipfile
    takes every entry that is a regular file.  The handler makes exactly
    one more call, the document holding the archive of the entries that
    are regular files; it ends as the transport ends that call; and in
    both cases the archive and every temp are off the disk. *)
Theorem send_zip_transmits (w w1 : world) (ps : list (string * string)) (ts : list string) :
  transport (w_outbox w) link_message = None ->
  prepare_files (sent link_message w) = (Val (ps, ts), w1) ->
  ps <> [] ->
  w_fs w1 !! zip_path <> Some Dir ->
  accepted (w_fs w1) ps ->
  send_zip w =
    (match transport (w_outbox w1)
             (ReplyDocument (zip_encode (members_of (w_fs w1) ps))
                "test_portfolios.zip" zip_caption) with
     | None => Val tt
     | Some e => Exn e
     end,
     {| w_fs := removed ts (delete zip_path (w_fs w1));
        w_stdout := w_stdout w1;
        w_outbox := w_outbox w1 ++
                    [ReplyDocument (zip_encode (members_of (w_fs w1) ps))
                       "test_portfolios.zip" zip_caption] |}).
Proof.
  intros Hlink Hp Hne Hnd Hacc. unfold send_zip, bind, send_link.
  rewrite send_run, Hlink, Hp. destruct (target_hint_run w1) as [hint ->].
  destruct ps as [|pr ps]; [done|].
  rewrite (zip_pairs_run _ w1 Hnd (prepare_files_not_zip_path _ _ _ _ Hp) Hacc).
  set (data := zip_encode (members_of (w_fs w1) (pr :: ps))).
  set (w2 := set_fs (insert zip_path (File data)) w1).
  assert (Hz : w_fs w2 !! zip_path = Some (File data)) by apply lookup_insert_eq.
  unfold try_finally. rewrite (reply_document_run _ _ _ data w2 Hz).
  unfold bind. rewrite try_pass_remove_run, remove_temps_run.
  unfold set_fs, sent, is_file. simpl. rewrite lookup_insert_eq, delete_insert_eq.
  done.
Qed.

Lemma reply_document_unreadable (path name caption : string) (w : world) :
  is_file (w_fs w) path = false ->
  reply_document_from path name caption w = (Exn (open_error (w_fs w) path), w).
Proof.
  unfold reply_document_from, bind, read_file, is_file, open_error.
  by destruct (w_fs w !! path) as [[?|]|].
Qed.

Lemma sent_all_nil (w : world) : sent_all [] w = w.
Proof. destruct w. unfold sent_all. simpl. by rewrite app_nil_r. Qed.

Lemma sent_all_cons (msg : outgoing) (msgs : list outgoing) (w : world) :
  sent_all msgs (sent msg w) = sent_all (msg :: msgs) w.
Proof. unfold sent_all, sent. simpl. by rewrite <- app_assoc. Qed.

(** The loop of [send_files] under a transport that always delivers:
    it sends the entries in order and stops at the first one it cannot
    open. *)
Lemma send_each_run (before after : list (string * string)) (w : world) :
  (forall history msg, transport history msg = None) ->
  Forall (fun e => is_file (w_fs w) e.1 = true) before ->
  (match after with [] => True | e :: _ => is_file (w_fs w) e.1 = false end) ->
  for_each (before ++ after)
    (fun '(path, name) _ => reply_document_from path name (file_caption name)) tt w =
  (match after with
   | [] => Val tt
   | e :: _ => Exn (open_error (w_fs w) e.1)
   end, sent_all (documents_of (w_fs w) before) w).
Proof.
  intros Hdel Hfiles Hstop. revert w Hfiles Hstop.
  induction before as [|[path name] before IH]; intros w Hfiles Hstop.
  - unfold documents_of. simpl. rewrite sent_all_nil.
    destruct after as [|[path name] after]; [done|].
    rewrite for_each_cons. simpl in Hstop. by rewrite reply_document_unreadable.
  - apply Forall_cons in Hfiles as [Hf Hfiles]. simpl in Hf. unfold is_file in Hf.
    destruct (w_fs w !! path) as [[data|]|] eqn:Hl; [|done..].
    change (((path, name) :: before) ++ after) with ((path, name) :: before ++ after).
    rewrite for_each_cons, (reply_document_run _ _ _ data) by done.
    rewrite Hdel. rewrite (IH (sent _ w)) by done.
    rewrite sent_all_cons. unfold documents_of, members_of. simpl. by rewrite Hl.
Qed.

Lemma send_files_run (w w1 : world) (before after : list (string * string)) (ts : list string) :
  (forall history msg, transport history msg = None) ->
  prepare_files (sent link_message w) = (Val (before ++ after, ts), w1) ->
  before ++ after <> [] ->
  Forall (fun e => is_file (w_fs w1) e.1 = true) before ->
  (match after with [] => True | e :: _ => is_file (w_fs w1) e.1 = false end) ->
  send_files w =
    (match after with
     | [] => Val tt
     | e :: _ => Exn (open_error (w_fs w1) e.1)
     end,
     {| w_fs := removed ts (w_fs w1);
        w_stdout := w_stdout w1;
        w_outbox := w_outbox w1 ++ documents_of (w_fs w1) before |}).
Proof.
  intros Hdel Hp Hne Hfiles Hstop. unfold send_files, bind, send_link.
  rewrite send_run, Hdel, Hp. destruct (target_hint_run w1) as [hint ->].
  destruct (before ++ after) as [|pr ps] eqn:E; [done|]. rewrite <- E.
  unfold try_finally.
  change (fun '(path, name) (_ : unit) =>
            reply_document_from path name ("📄 " +:+ name +:+ " — import into StoxEye."))
    with (fun '(path, name) (_ : unit) => reply_document_from path name (file_caption name)).
  rewrite (send_each_run before after w1 Hdel Hfiles Hstop), remove_temps_run.
  done.
Qed.

(** X15. [send_files] when every entry is a regular file and the transport
    delivers: one document per entry, in order, each under its display
    name, then every temp is removed. *)
Theorem send_files_delivers_all (w w1 : world) (ps : list (string * string)) (ts : list string) :
  (forall history msg, transport history msg = None) ->
  prepare_files (sent link_message w) = (Val (ps, ts), w1) ->
  ps <> [] ->
  Forall (fun e => is_file (w_fs w1) e.1 = true) ps ->
  send_files w =
    (Val tt,
     {| w_fs := removed ts (w_fs w1);
        w_stdout := w_stdout w1;
        w_outbox := w_outbox w1 ++ documents_of (w_fs w1) ps |}).
Proof.
  intros Hdel Hp Hne Hfiles.
  rewrite <- (app_nil_r ps) in Hp, Hne.
  by rewrite (send_files_run w w1 ps [] ts Hdel Hp Hne Hfiles I).
Qed.

(** X16. [send_files] stops at the first entry that is not a regular file
    (a sub-directory the scan matched, a file that vanished): the entries
    before it have been sent, it and those after it have not, the handler
    ends with the exception of [open], and the temps are removed all the
    same.  [send_zip] skips such an entry instead. *)
Theorem send_files_stops_at_unreadable (w w1 : world)
  (before after : list (string * string)) (path name : string) (ts : list string) :
  (forall history msg, transport history msg = None) ->
  prepare_files (sent link_message w) = (Val (before ++ (path, name) :: after, ts), w1) ->
  Forall (fun e => is_file (w_fs w1) e.1 = true) before ->
  is_file (w_fs w1) path = false ->
  send_files w =
    (Exn (open_error (w_fs w1) path),
     {| w_fs := removed ts (w_fs w1);
        w_stdout := w_stdout w1;
        w_outbox := w_outbox w1 ++ documents_of (w_fs w1) before |}).
Proof.
  intros Hdel Hp Hfiles Hstop.
  rewrite (send_files_run w w1 before ((path, name) :: after) ts Hdel Hp); try done.
  by destruct before.
Qed.

(** *** Stripping *)

Lemma all_chars_app (f : ascii -> bool) (a b : string) :
  all_chars f (a +:+ b) = all_chars f a && all_chars f b.
Proof.
  induction a as [|x a IH]; str_simpl; simpl; [done|]. by rewrite IH, andb_assoc.
Qed.

Lemma all_chars_rev (f : ascii -> bool) (s : string) :
  all_chars f (String.rev s) = all_chars f s.
Proof.
  induction s as [|x s IH]; [done|].
  rewrite rev_cons, all_chars_app, IH. simpl. rewrite andb_true_r. apply andb_comm.
Qed.

Lemma lstrip_empty_iff (f : ascii -> bool) (s : string) :
  Str.lstrip f s = "" <-> all_chars f s = true.
Proof.
  induction s as [|x s IH]; [done|]. rewrite lstrip_cons. simpl.
  destruct (f x); simpl; [done|]. split; discriminate.
Qed.

Lemma lstrip_app_all (f : ascii -> bool) (a s : string) :
  all_chars f a = true -> Str.lstrip f (a +:+ s) = Str.lstrip f s.
Proof.
  induction a as [|x a IH]; str_simpl; [done|]. intros H. simpl in H.
  apply andb_true_iff in H as [Hx Ha]. rewrite lstrip_cons, Hx. by apply IH.
Qed.

Lemma rev_eq_nil (s : string) : String.rev s = "" -> s = "".
Proof. intros H. apply (f_equal String.rev) in H. by rewrite rev_involutive in H. Qed.

Lemma strip_chars_empty_iff (f : ascii -> bool) (s : string) :
  Str.strip_chars f s = "" <-> all_chars f s = true.
Proof.
  unfold Str.strip_chars, Str.rstrip. split.
  - intros H%rev_eq_nil. apply lstrip_empty_iff in H. rewrite all_chars_rev in H.
    destruct (Str.lstrip f s) as [|c r] eqn:E; [by apply lstrip_empty_iff|].
    exfalso. revert E H. clear. induction s as [|x s IH]; [done|].
    rewrite lstrip_cons. destruct (f x) eqn:Hx; [done|].
    intros E. injection E as <- <-. simpl. by rewrite Hx.
  - intros H. apply lstrip_empty_iff in H. by rewrite H.
Qed.

(** Stripping [f] from a string wrapped in characters [f] accepts gives
    back what was wrapped, when that has no such character at its ends. *)
Lemma strip_chars_wrapped (f : ascii -> bool) (a s b : string) :
  all_chars f a = true -> all_chars f b = true -> edge_free f s ->
  Str.strip_chars f (a +:+ s +:+ b) = s.
Proof.
  intros Ha Hb [->|[(c & r & -> & Hc) (c' & r' & Hrev & Hc')]].
  - str_simpl. apply strip_chars_empty_iff. by rewrite all_chars_app, Ha, Hb.
  - unfold Str.strip_chars, Str.rstrip. rewrite lstrip_app_all by done.
    str_simpl. rewrite lstrip_cons, Hc.
    change (String c (r +:+ b)) with (String c r +:+ b).
    rewrite rev_app_distr, lstrip_app_all by (by rewrite all_chars_rev).
    rewrite Hrev, lstrip_cons, Hc', <- Hrev. apply rev_involutive.
Qed.

(** *** The greeting *)



(** X18. Any other ASCII text, or none, gets the help text and nothing else
    happens: no file is looked at, nothing is printed. *)
Theorem other_text_gets_help (text : option string) (w : world) :
  all_chars is_ascii (match text with Some t => t | None => "" end) = true ->
  Str.lower (Str.strip (match text with Some t => t | None => "" end)) <> "hi" ->
  on_message text w =
    (match transport (w_outbox w) (ReplyText help_text None) with
     | None => Val tt | Some e => Exn e end,
     sent (ReplyText help_text None) w).
Proof.
  intros _ H. unfold on_message, on_text.
  destruct (String.eqb_spec (Str.lower (Str.strip match text with Some t => t | None => "" end))
              "hi") as [E|_]; [done|].
  unfold reply_text. by rewrite send_run.
Qed.

End Bot.

(** ** Startup *)

(** C7. With [BOT_TOKEN] unset or empty in the environment, the module
    body raises [RuntimeError] at the token check; the script dies there
    and never reaches [main()]. *)
Theorem missing_token_is_fatal
  (normpath expanduser : string -> string) (env : gmap string string) :
  env !! "BOT_TOKEN" = None \/ env !! "BOT_TOKEN" = Some "" ->
  load_config normpath expanduser env =
    Exn (RuntimeError "Set BOT_TOKEN in .env with your BotFather token.") /\
  run_script normpath expanduser env =
    Died (RuntimeError "Set BOT_TOKEN in .env with your BotFather token.").
Proof.
  intros H.
  assert (E : load_config normpath expanduser env =
              Exn (RuntimeError "Set BOT_TOKEN in .env with your BotFather token.")).
  { unfold load_config, getenv. by destruct H as [-> | ->]. }
  split; [done|]. unfold run_script. by rewrite E.
Qed.

(** A token of white space only is refused as well, and a script that
    polls holds a non-empty token. *)
Lemma blank_token_is_fatal (normpath expanduser : string -> string) (env : gmap string string) :
  Str.strip (getenv env "BOT_TOKEN" "") = "" ->
  exists e, run_script normpath expanduser env = Died e.
Proof.
  intros H. unfold run_script, load_config. rewrite H. by eexists.
Qed.

Lemma polling_has_token (normpath expanduser : string -> string) (env : gmap string string) cfg :
  run_script normpath expanduser env = Polling cfg -> BOT_TOKEN cfg <> "".
Proof.
  unfold run_script, load_config.
  destruct (String.eqb_spec (Str.strip (getenv env "BOT_TOKEN" "")) "") as [E|E]; [done|].
  intros H. by injection H as <-.
Qed.

(** ** The theorems at concrete inputs *)

Local Abbreviation demo_prepare :=
  (prepare string Demo.read_excel Demo.to_csv Demo.exn_str Demo.tempdir).
Local Abbreviation demo_prepare_step :=
  (prepare_step string Demo.read_excel Demo.to_csv Demo.exn_str Demo.tempdir).
Local Abbreviation demo_convert :=
  (convert_excel_to_csv string Demo.read_excel Demo.to_csv Demo.tempdir).
Local Abbreviation demo_prepare_files :=
  (prepare_files string Demo.read_excel Demo.to_csv Demo.exn_str Demo.tempdir).
Local Abbreviation demo_zip_pairs :=
  (zip_pairs Demo.zip_encode Demo.zip_partial Demo.accepts Demo.tempdir).
Local Abbreviation demo_send_zip transport :=
  (send_zip string Demo.read_excel Demo.to_csv Demo.exn_str Demo.zip_encode Demo.zip_partial Demo.accepts
     transport Demo.tempdir).
Local Abbreviation demo_send_files transport :=
  (send_files string Demo.read_excel Demo.to_csv Demo.exn_str transport Demo.tempdir).

Lemma prepare_conversion_failure_not_fatal_witness :
  exists ps2 ts2 w2 w3,
    demo_prepare_step "data/bad.xls" ([("data/a.csv", "a.csv")], []) Demo.w_data =
      (Val ([("data/a.csv", "a.csv")] ++ [("data/bad.xls", Path.name "data/bad.xls")], []), w2) /\
    w_stdout w2 =
      w_stdout Demo.w_data ++ ["[WARN] Excel->CSV failed for data/bad.xls: not a spreadsheet"] /\
    w_fs w2 = w_fs Demo.w_data /\
    demo_prepare ["data/b.xlsx"] w2 = (Val (ps2, ts2), w3) /\
    demo_prepare (["data/a.csv"] ++ "data/bad.xls" :: ["data/b.xlsx"]) Demo.w_data =
      (Val ([("data/a.csv", "a.csv")] ++ ("data/bad.xls", Path.name "data/bad.xls") :: ps2,
            [] ++ ts2), w3).
Proof.
  apply (prepare_conversion_failure_not_fatal string Demo.read_excel Demo.to_csv Demo.exn_str Demo.tempdir
           ["data/a.csv"] ["data/b.xlsx"] "data/bad.xls" Demo.not_a_spreadsheet
           Demo.w_data Demo.w_data Demo.w_data);
    vm_compute; reflexivity.
Defined.

Lemma prepare_entries_witness :
  (exists ps2 ts2 w3,
     demo_prepare ["data/b.xlsx"] Demo.w_data = (Val (ps2, ts2), w3) /\
     demo_prepare ([] ++ "data/t.CSV" :: ["data/b.xlsx"]) Demo.w_data =
       (Val ([] ++ ("data/t.CSV", Path.name "data/t.CSV") :: ps2, [] ++ ts2), w3)) /\
  (exists raw df ps2 ts2 w3,
     w_fs Demo.w_data !! "data/b.xlsx" = Some (File raw) /\
     Demo.read_excel raw = inr df /\
     "/tmp/b.csv" = Path.join Demo.tempdir (Path.stem "data/b.xlsx" +:+ ".csv") /\
     w_fs (set_fs (insert "/tmp/b.csv" (File "1,2")) Demo.w_data) =
       <["/tmp/b.csv" := File (Demo.to_csv df)]> (w_fs Demo.w_data) /\
     demo_prepare ["data/a.csv"] (set_fs (insert "/tmp/b.csv" (File "1,2")) Demo.w_data) =
       (Val (ps2, ts2), w3) /\
     demo_prepare ([] ++ "data/b.xlsx" :: ["data/a.csv"]) Demo.w_data =
       (Val ([] ++ ("/tmp/b.csv", Path.stem "data/b.xlsx" +:+ "_converted.csv") :: ps2,
             [] ++ "/tmp/b.csv" :: ts2), w3)).
Proof.
  split.
  - apply (proj1 (prepare_entries string Demo.read_excel Demo.to_csv Demo.exn_str Demo.tempdir
                    [] ["data/b.xlsx"] "data/t.CSV" Demo.w_data Demo.w_data [] [] eq_refl)).
    vm_compute; reflexivity.
  - apply (proj2 (prepare_entries string Demo.read_excel Demo.to_csv Demo.exn_str Demo.tempdir
                    [] ["data/a.csv"] "data/b.xlsx" Demo.w_data Demo.w_data [] [] eq_refl)).
    + vm_compute; reflexivity.
    + vm_compute; reflexivity.
Defined.

Lemma find_sources_single_file_witness :
  is_file (w_fs Demo.w_data) "data/notes.txt" = true /\
  find_sources (Demo.cfg "data/notes.txt") Demo.w_data = (Val ["data/notes.txt"], Demo.w_data).
Proof.
  split; [reflexivity|].
  apply (find_sources_single_file (Demo.cfg "data/notes.txt") Demo.w_data). reflexivity.
Defined.

Lemma zip_pairs_archive_witness :
  zip_path Demo.tempdir = Path.join Demo.tempdir "test_portfolios.zip" /\
  demo_zip_pairs [("data/a.csv", "a.csv"); ("data/gone.csv", "gone.csv"); ("data", "dir")]
    Demo.w_data =
    (Val (zip_path Demo.tempdir),
     set_fs (insert (zip_path Demo.tempdir)
               (File (Demo.zip_encode
                        (members_of (w_fs Demo.w_data)
                           [("data/a.csv", "a.csv"); ("data/gone.csv", "gone.csv");
                            ("data", "dir")]))))
       Demo.w_data) /\
  demo_zip_pairs [] Demo.w_data =
    (Val (zip_path Demo.tempdir),
     set_fs (insert (zip_path Demo.tempdir) (File (Demo.zip_encode []))) Demo.w_data).
Proof.
  apply (zip_pairs_archive Demo.zip_encode Demo.zip_partial Demo.accepts Demo.tempdir
           [("data/a.csv", "a.csv"); ("data/gone.csv", "gone.csv"); ("data", "dir")]
           Demo.w_data).
  - vm_compute. discriminate.
  - repeat constructor; vm_compute; discriminate.
  - repeat constructor.
Defined.

Lemma missing_token_is_fatal_witness :
  load_config id id ∅ = Exn (RuntimeError "Set BOT_TOKEN in .env with your BotFather token.") /\
  run_script id id ∅ = Died (RuntimeError "Set BOT_TOKEN in .env with your BotFather token.").
Proof.
  apply (missing_token_is_fatal id id ∅). left. reflexivity.
Defined.

Lemma prepare_twice_witness :
  exists ps' ts' w2,
    demo_prepare ["data/a.csv"; "data/s.xls"; "data/s.xlsx"; "data/bad.xls"]
      (demo_prepare ["data/a.csv"; "data/s.xls"; "data/s.xlsx"; "data/bad.xls"] Demo.w_data).2 =
      (Val (ps', ts'), w2) /\
    ps'.*2 = [("data/a.csv", "a.csv"); ("/tmp/s.csv", "s_converted.csv");
              ("/tmp/s.csv", "s_converted.csv"); ("data/bad.xls", "bad.xls")].*2 /\
    Forall2 (fun e e' =>
               w_fs w2 !! e'.1 =
               w_fs (demo_prepare ["data/a.csv"; "data/s.xls"; "data/s.xlsx"; "data/bad.xls"]
                       Demo.w_data).2 !! e.1)
      [("data/a.csv", "a.csv"); ("/tmp/s.csv", "s_converted.csv");
       ("/tmp/s.csv", "s_converted.csv"); ("data/bad.xls", "bad.xls")] ps' /\
    ps' = [("data/a.csv", "a.csv"); ("/tmp/s.csv", "s_converted.csv");
           ("/tmp/s.csv", "s_converted.csv"); ("data/bad.xls", "bad.xls")] /\
    ts' = ["/tmp/s.csv"; "/tmp/s.csv"] /\
    w_fs w2 =
      w_fs (demo_prepare ["data/a.csv"; "data/s.xls"; "data/s.xlsx"; "data/bad.xls"]
              Demo.w_data).2.
Proof.
  apply (prepare_twice string Demo.read_excel Demo.to_csv Demo.exn_str Demo.tempdir
           ["data/a.csv"; "data/s.xls"; "data/s.xlsx"; "data/bad.xls"] Demo.w_data).
  vm_compute; reflexivity.
Defined.

Lemma unsupported_single_file_dropped_witness :
  find_sources (Demo.cfg "data/notes.txt") Demo.w_data = (Val ["data/notes.txt"], Demo.w_data) /\
  demo_prepare_files (Demo.cfg "data/notes.txt") Demo.w_data = (Val ([], []), Demo.w_data) /\
  (exists r, demo_send_zip Demo.delivers (Demo.cfg "data/notes.txt") Demo.w_data =
             (r, sent (ReplyText "⚠️ No CSV/Excel files found at data/notes.txt" None)
                   (sent (link_message (Demo.cfg "data/notes.txt")) Demo.w_data))) /\
  (exists r, demo_send_files Demo.delivers (Demo.cfg "data/notes.txt") Demo.w_data =
             (r, sent (ReplyText "⚠️ No CSV/Excel files found at data/notes.txt" None)
                   (sent (link_message (Demo.cfg "data/notes.txt")) Demo.w_data))).
Proof.
  apply (unsupported_single_file_dropped string Demo.read_excel Demo.to_csv Demo.exn_str
           Demo.zip_encode Demo.zip_partial Demo.accepts Demo.delivers Demo.tempdir
           (Demo.cfg "data/notes.txt") Demo.w_data); reflexivity.
Defined.

Lemma same_stem_conversions_collide_witness :
  exists ps1 ps2 ps3 ts1 ts2 ts3 wa wb wc wd we,
    demo_prepare ["data/a.csv"] Demo.w_data = (Val (ps1, ts1), wa) /\
    demo_convert "data/s.xls" wa = (Val "/tmp/s.csv", wb) /\
    w_fs wb = <["/tmp/s.csv" := File (Demo.to_csv "old")]> (w_fs wa) /\
    demo_prepare [] wb = (Val (ps2, ts2), wc) /\
    demo_convert "data/s.xlsx" wc = (Val "/tmp/s.csv", wd) /\
    w_fs wd = <["/tmp/s.csv" := File (Demo.to_csv "new")]> (w_fs wc) /\
    demo_prepare ["data/t.CSV"] wd = (Val (ps3, ts3), we) /\
    demo_prepare (["data/a.csv"] ++ "data/s.xls" :: [] ++ "data/s.xlsx" :: ["data/t.CSV"])
      Demo.w_data =
      (Val (ps1 ++ ("/tmp/s.csv", "s_converted.csv") :: ps2 ++
              ("/tmp/s.csv", "s_converted.csv") :: ps3,
            ts1 ++ "/tmp/s.csv" :: ts2 ++ "/tmp/s.csv" :: ts3), we).
Proof.
  apply (same_stem_conversions_collide string Demo.read_excel Demo.to_csv Demo.exn_str Demo.tempdir
           ["data/a.csv"] [] ["data/t.CSV"] "data/s.xls" "data/s.xlsx" Demo.w_data
           "XLS:old" "XLS:new" "old" "new"); try reflexivity.
  vm_compute. discriminate.
Defined.

(** ** Where the handlers and the scan fall short *)

(** C1. A run of [send_zip] that breaks the cleanup invariant: the source
    directory holds [port1.csv] and [port2.xlsx], and a directory sits at
    the archive's scratch path.  [prepare_files] converts the spreadsheet
    and records [/tmp/port2.csv] in temps; [zip_pairs], called before the
    [try], raises; the handler ends with that exception and the converted
    file is still on disk. *)
Theorem send_zip_leaks_temp_when_packing_raises :
  is_file (w_fs Demo.w_ports_blocked) "/tmp/port2.csv" = false /\
  (demo_prepare_files (Demo.cfg "ports")
     (sent (link_message (Demo.cfg "ports")) Demo.w_ports_blocked)).1 =
    Val ([("ports/port1.csv", "port1.csv"); ("/tmp/port2.csv", "port2_converted.csv")],
         ["/tmp/port2.csv"]) /\
  (demo_send_zip Demo.delivers (Demo.cfg "ports") Demo.w_ports_blocked).1 =
    Exn (IsADirectoryError "/tmp/test_portfolios.zip") /\
  w_fs (demo_send_zip Demo.delivers (Demo.cfg "ports") Demo.w_ports_blocked).2
    !! "/tmp/port2.csv" = Some (File "c,d").
Proof. repeat split; vm_compute; reflexivity. Qed.

(** C2. A scan that misses spreadsheets: of the entries of [data], the
    four patterns find those ending in exactly [.csv], [.CSV], [.xlsx] or
    [.xls]; the regular files [Q.XLSX], [r.Csv] and [v.XLS] are left
    out. *)
Theorem list_from_dir_misses_other_casings :
  _list_from_dir "data" Demo.w_data =
    (Val ["data/a.csv"; "data/b.xlsx"; "data/bad.xls"; "data/s.xls"; "data/s.xlsx";
          "data/t.CSV"], Demo.w_data) /\
  is_file (w_fs Demo.w_data) "data/Q.XLSX" = true /\
  is_file (w_fs Demo.w_data) "data/r.Csv" = true /\
  is_file (w_fs Demo.w_data) "data/v.XLS" = true /\
  Str.endswith (Str.lower "data/Q.XLSX") ".xlsx" = true /\
  Str.endswith (Str.lower "data/r.Csv") ".csv" = true /\
  Str.endswith (Str.lower "data/v.XLS") ".xls" = true.
Proof. repeat split; vm_compute; reflexivity. Qed.

(** C6, the claim as it stands.  [zip_pairs] does raise: with a
    directory at the scratch path it raises on no entries at all, before
    anything is written; and an entry zipfile refuses makes it raise once
    the archive has been closed over the members before that entry. *)
Theorem zip_pairs_can_raise :
  demo_zip_pairs [] Demo.w_ports_blocked =
    (Exn (IsADirectoryError "/tmp/test_portfolios.zip"), Demo.w_ports_blocked) /\
  zip_pairs Demo.zip_encode Demo.zip_partial Cases.refuses_old Demo.tempdir
    [("data/a.csv", "a.csv"); ("data/t.CSV", "t.CSV"); ("data/b.xlsx", "b.xlsx")]
    Demo.w_data =
    (Exn (ValueError "ZIP does not support timestamps before 1980"),
     set_fs (insert "/tmp/test_portfolios.zip" (File "PK{a.csv=x,y;}")) Demo.w_data).
Proof. split; vm_compute; reflexivity. Qed.

(** ** Worked examples *)

Example lower_ex : Str.lower "Dir/Port.XLSX" = "dir/port.xlsx".
Proof. reflexivity. Qed.

Example endswith_ex : Str.endswith "a/b.csv" ".csv" = true /\ Str.endswith "a/b.csvx" ".csv" = false.
Proof. split; reflexivity. Qed.

Example name_ex : Path.name "/data/./port2.xlsx" = "port2.xlsx" /\ Path.name "a.tar.gz" = "a.tar.gz".
Proof. split; reflexivity. Qed.

Example stem_ex :
  Path.stem "/data/port2.xlsx" = "port2" /\ Path.stem "d/.xlsx" = ".xlsx" /\ Path.stem "d/a.b.xls" = "a.b".
Proof. repeat split; reflexivity. Qed.

Example join_ex :
  Path.join "/tmp" "s.csv" = "/tmp/s.csv" /\ Path.join "/" "s.csv" = "/s.csv" /\ Path.join "d" "/x" = "/x".
Proof. repeat split; reflexivity. Qed.

Example split_ex :
  Path.split "d/e/*.csv" = ("d/e", "*.csv") /\ Path.split "/x" = ("/", "x") /\ Path.split "x" = ("", "x").
Proof. repeat split; reflexivity. Qed.

Example strip_ex : Str.strip "  tok en " = "tok en" /\ Str.strip "   " = "".
Proof. split; reflexivity. Qed.

Example fnmatch_ex :
  fnmatch "*.csv" "a.csv" = true /\ fnmatch "*.csv" "a.CSV" = false /\
  fnmatch "*.xls" "b.xlsx" = false /\ fnmatch "*.csv" ".csv" = true.
Proof. repeat split; reflexivity. Qed.

Example glob_ex :
  glob (<["d/a.csv" := File "1"]> (<["d/.h.csv" := File "2"]> (<["d/s/b.csv" := File "3"]>
        (<["d/c.CSV" := File "4"]> (<["e/x.csv" := File "5"]> ∅))))) "d/*.csv" = ["d/a.csv"].
Proof. vm_compute. reflexivity. Qed.

Example sorted_ex : sorted_lower (set_iter ["d/b.csv"; "d/A.CSV"; "d/b.csv"]) = ["d/A.CSV"; "d/b.csv"].
Proof. vm_compute. reflexivity. Qed.

(** The spec's end-to-end run: two entries, an archive with exactly those
    two names, and after the handler neither the converted file nor the
    archive is on disk. *)
Example end_to_end :
  (demo_prepare_files (Demo.cfg "ports") Demo.w_ports).1 =
    Val ([("ports/port1.csv", "port1.csv"); ("/tmp/port2.csv", "port2_converted.csv")],
         ["/tmp/port2.csv"]) /\
  (demo_send_zip Demo.delivers (Demo.cfg "ports") Demo.w_ports).1 = Val tt /\
  last (w_outbox (demo_send_zip Demo.delivers (Demo.cfg "ports") Demo.w_ports).2) =
    Some (ReplyDocument "PK{port1.csv=a,b;port2_converted.csv=c,d;}" "test_portfolios.zip"
            "📦 All sample portfolios (CSV). Import any one into StoxEye.") /\
  w_fs (demo_send_zip Demo.delivers (Demo.cfg "ports") Demo.w_ports).2 = Demo.fs_ports.
Proof. repeat split; vm_compute; reflexivity. Qed.

(** A transport that raises on documents: both handlers end with its
    exception and have cleaned up. *)
Example transmission_failure :
  demo_send_zip Demo.drops_documents (Demo.cfg "ports") Demo.w_ports =
    (Exn (TransportError "timed out"),
     sent (ReplyDocument "PK{port1.csv=a,b;port2_converted.csv=c,d;}" "test_portfolios.zip"
             "📦 All sample portfolios (CSV). Import any one into StoxEye.")
       (sent (link_message (Demo.cfg "ports")) Demo.w_ports)) /\
  (demo_send_files Demo.drops_documents (Demo.cfg "ports") Demo.w_ports).1 =
    Exn (TransportError "timed out") /\
  w_fs (demo_send_files Demo.drops_documents (Demo.cfg "ports") Demo.w_ports).2 = Demo.fs_ports.
Proof. repeat split; vm_compute; reflexivity. Qed.

(** [os.makedirs] on the way to the configured path: below a regular
    file the scan never starts, and missing directories are made from
    the top. *)
Example scan_makes_directories :
  find_sources (Demo.cfg "data/notes.txt/sub") Demo.w_data =
    (Exn (NotADirectoryError "data/notes.txt/sub"), Demo.w_data) /\
  find_sources (Demo.cfg "x/y") (Demo.boot ∅) =
    (Val [], Demo.boot (list_to_map [("x", Dir); ("x/y", Dir)])).
Proof. split; vm_compute; reflexivity. Qed.

(** A directory that is also the scratch directory: the first run of
    [prepare_files] adds a [.csv] there, so the second run, which scans
    again, returns one more entry. *)
Example rescan_sees_converted_file :
  let fs : filesystem := list_to_map [("/tmp", Dir); ("/tmp/s.xlsx", File "XLS:1")] in
  (demo_prepare_files (Demo.cfg "/tmp") (Demo.boot fs)).1 =
    Val ([("/tmp/s.csv", "s_converted.csv")], ["/tmp/s.csv"]) /\
  (demo_prepare_files (Demo.cfg "/tmp")
     (demo_prepare_files (Demo.cfg "/tmp") (Demo.boot fs)).2).1 =
    Val ([("/tmp/s.csv", "s.csv"); ("/tmp/s.csv", "s_converted.csv")], ["/tmp/s.csv"]).
Proof. repeat split; vm_compute; reflexivity. Qed.

(** X19. The script starts exactly when [BOT_TOKEN] holds a character that is
    not white space: an ASCII token of white space only (or none) makes
    it die with the configuration error; any other ASCII token is kept,
    stripped, and the script polls. *)
Theorem startup_decided_by_token
  (normpath expanduser : string -> string) (env : gmap string string) :
  all_chars is_ascii (getenv env "BOT_TOKEN" "") = true ->
  if all_chars Str.isspace (getenv env "BOT_TOKEN" "")
  then run_script normpath expanduser env =
         Died (RuntimeError "Set BOT_TOKEN in .env with your BotFather token.")
  else exists cfg, run_script normpath expanduser env = Polling cfg /\
                   BOT_TOKEN cfg = Str.strip (getenv env "BOT_TOKEN" "") /\
                   BOT_TOKEN cfg <> "".
Proof.
  intros _. unfold run_script, load_config.
  destruct (all_chars Str.isspace (getenv env "BOT_TOKEN" "")) eqn:E.
  - apply strip_chars_empty_iff in E. unfold Str.strip. by rewrite E.
  - destruct (String.eqb_spec (Str.strip (getenv env "BOT_TOKEN" "")) "") as [H|H].
    + apply strip_chars_empty_iff in H. congruence.
    + eexists. by split_and!.
Qed.

(** X20. A [CSV_DIR] value written between double quotes, with white space
    around the quotes, configures what stands between the quotes: the
    path handed to [expanduser] and [normpath] is that string, provided
    it has no quote character at its ends. *)
Theorem quoted_csv_dir_is_unwrapped
  (normpath expanduser : string -> string) (env : gmap string string)
  (lead trail s : string) (cfg : config) :
  all_chars Str.isspace lead = true -> all_chars Str.isspace trail = true ->
  edge_free (Ascii.eqb double_quote) s -> edge_free (Ascii.eqb single_quote) s ->
  env !! "CSV_DIR" =
    Some (lead +:+ (String double_quote s +:+ String double_quote "") +:+ trail) ->
  load_config normpath expanduser env = Val cfg ->
  CSV_TARGET cfg = normpath (expanduser s).
Proof.
  intros Hl Ht Hd Hs Henv Hcfg. unfold load_config in Hcfg.
  destruct (String.eqb _ _); [done|]. injection Hcfg as <-. simpl.
  unfold getenv at 1. rewrite Henv. unfold Str.strip.
  rewrite strip_chars_wrapped; [|done|done|].
  2:{ right. split.
      - by exists double_quote, (s +:+ String double_quote "").
      - exists double_quote, (String.rev (String double_quote s)).
        split; [|done]. by rewrite rev_app_distr. }
  change (String double_quote s +:+ String double_quote "")
    with (String double_quote "" +:+ s +:+ String double_quote "").
  rewrite strip_chars_wrapped; [|done|done|done].
  pose proof (strip_chars_wrapped (Ascii.eqb single_quote) "" s "" eq_refl eq_refl Hs) as E.
  rewrite str_app_nil_r in E. change ("" +:+ s) with s in E.
  unfold single_quote in E. by rewrite E.
Qed.

(** ** The further properties at concrete inputs *)

Lemma prepare_entries_shape_witness :
  Forall (fun e : string * string =>
            exists p, p ∈ ["data/a.csv"; "data/b.xlsx"; "data/notes.txt"] /\
              (e = (p, Path.name p) \/
               (e = (Path.join Demo.tempdir (Path.stem p +:+ ".csv"),
                     Path.stem p +:+ "_converted.csv") /\ e.1 ∈ ["/tmp/b.csv"])))
    [("data/a.csv", "a.csv"); ("/tmp/b.csv", "b_converted.csv")] /\
  length [("data/a.csv", "a.csv"); ("/tmp/b.csv", "b_converted.csv")] <=
    length ["data/a.csv"; "data/b.xlsx"; "data/notes.txt"] /\
  ["/tmp/b.csv"] ⊆ [("data/a.csv", "a.csv"); ("/tmp/b.csv", "b_converted.csv")].*1.
Proof.
  apply (prepare_entries_shape string Demo.read_excel Demo.to_csv Demo.exn_str Demo.tempdir
           ["data/a.csv"; "data/b.xlsx"; "data/notes.txt"] Demo.w_data
           (set_fs (insert "/tmp/b.csv" (File "1,2")) Demo.w_data)).
  vm_compute; reflexivity.
Defined.

Lemma prepare_no_entries_no_temps_witness :
  @nil string = [] /\ w_fs Demo.w_data = w_fs Demo.w_data.
Proof.
  apply (prepare_no_entries_no_temps string Demo.read_excel Demo.to_csv Demo.exn_str Demo.tempdir
           ["data/notes.txt"; "data"] Demo.w_data Demo.w_data []).
  vm_compute; reflexivity.
Defined.

Lemma list_from_dir_sorted_nodup_witness :
  NoDup ["data/a.csv"; "data/b.xlsx"; "data/bad.xls"; "data/s.xls"; "data/s.xlsx";
         "data/t.CSV"] /\
  Sorted le_lower ["data/a.csv"; "data/b.xlsx"; "data/bad.xls"; "data/s.xls"; "data/s.xlsx";
                   "data/t.CSV"].
Proof.
  assert (H : _list_from_dir "data" Demo.w_data =
              (Val ["data/a.csv"; "data/b.xlsx"; "data/bad.xls"; "data/s.xls"; "data/s.xlsx";
                    "data/t.CSV"], Demo.w_data)) by (vm_compute; reflexivity).
  destruct (list_from_dir_sorted_nodup "data" Demo.w_data Demo.w_data _ H) as [Hn Hs].
  split; [exact Hn | apply Hs; repeat constructor].
Defined.

Lemma find_sources_effects_witness :
  exists p, (find_sources (Demo.cfg "data/notes.txt/sub") Demo.w_data).1 =
            Exn (NotADirectoryError p).
Proof.
  apply (proj2 (proj2 (proj2
           (find_sources_effects (Demo.cfg "data/notes.txt/sub") Demo.w_data)))
           "data/notes.txt").
  - reflexivity.
  - vm_compute. apply list_elem_of_further, list_elem_of_here.
  - reflexivity.
Defined.

Lemma list_from_dir_exact_witness :
  "data/t.CSV" ∈ ["data/a.csv"; "data/b.xlsx"; "data/bad.xls"; "data/s.xls"; "data/s.xlsx";
                  "data/t.CSV"] <->
  exists n, "data/t.CSV" = "data" +:+ "/" +:+ n /\ n <> "" /\
            Str.contains Path.sep n = false /\
            is_Some (w_fs Demo.w_data !! "data/t.CSV") /\
            Str.startswith n "." = false /\ scanned_suffix n = true.
Proof.
  apply (list_from_dir_exact "data" Demo.w_data Demo.w_data).
  - split; [discriminate | reflexivity].
  - reflexivity.
  - vm_compute; reflexivity.
Defined.

Lemma scan_then_prepare_witness :
  exists files w1,
    find_sources (Demo.cfg "ports") Demo.w_ports = (Val files, w1) /\
    Forall2 (fun (p : string) (e : string * string) =>
               e = (p, Path.name p) \/
               e = (Path.join Demo.tempdir (Path.stem p +:+ ".csv"),
                    Path.stem p +:+ "_converted.csv"))
      files [("ports/port1.csv", "port1.csv"); ("/tmp/port2.csv", "port2_converted.csv")].
Proof.
  apply (scan_then_prepare string Demo.read_excel Demo.to_csv Demo.exn_str Demo.tempdir
           (Demo.cfg "ports") Demo.w_ports
           (set_fs (insert "/tmp/port2.csv" (File "c,d")) Demo.w_ports)
           _ ["/tmp/port2.csv"]).
  - split; [discriminate | reflexivity].
  - reflexivity.
  - reflexivity.
  - vm_compute; reflexivity.
Defined.

Local Abbreviation demo_on_text transport :=
  (on_text string Demo.read_excel Demo.to_csv Demo.exn_str Demo.zip_encode Demo.zip_partial Demo.accepts
     transport Demo.tempdir).
Local Abbreviation demo_on_message transport :=
  (on_message string Demo.read_excel Demo.to_csv Demo.exn_str Demo.zip_encode Demo.zip_partial Demo.accepts
     transport Demo.tempdir).
Local Abbreviation demo_start_cmd transport :=
  (start_cmd string Demo.read_excel Demo.to_csv Demo.exn_str Demo.zip_encode Demo.zip_partial Demo.accepts
     transport Demo.tempdir).

(** The world of [Demo.fs_ports] once the link went out and
    [prepare_files] returned, and the entries it returned. *)
Local Abbreviation ports_prepared :=
  (set_fs (insert "/tmp/port2.csv" (File "c,d"))
     (sent (link_message (Demo.cfg "ports")) Demo.w_ports)).
Local Abbreviation ports_entries :=
  [("ports/port1.csv", "port1.csv"); ("/tmp/port2.csv", "port2_converted.csv")].

Lemma prepare_then_pack_witness :
  demo_zip_pairs ports_entries (set_fs (insert "/tmp/port2.csv" (File "c,d")) Demo.w_ports) =
    (Val (zip_path Demo.tempdir),
     set_fs (insert (zip_path Demo.tempdir)
               (File (Demo.zip_encode
                        (members_of
                           (w_fs (set_fs (insert "/tmp/port2.csv" (File "c,d")) Demo.w_ports))
                           ports_entries))))
       (set_fs (insert "/tmp/port2.csv" (File "c,d")) Demo.w_ports)) /\
  (forall t, t ∈ ["/tmp/port2.csv"] ->
     exists name data,
       (name, data) ∈ members_of
                        (w_fs (set_fs (insert "/tmp/port2.csv" (File "c,d")) Demo.w_ports))
                        ports_entries /\
       w_fs (set_fs (insert "/tmp/port2.csv" (File "c,d")) Demo.w_ports) !! t =
         Some (File data)).
Proof.
  apply (prepare_then_pack string Demo.read_excel Demo.to_csv Demo.exn_str Demo.zip_encode Demo.zip_partial Demo.accepts
           Demo.tempdir ["ports/port1.csv"; "ports/port2.xlsx"] Demo.w_ports).
  - vm_compute; reflexivity.
  - vm_compute; discriminate.
  - repeat constructor.
Defined.

Lemma zip_pairs_failures_witness :
  zip_pairs Demo.zip_encode Demo.zip_partial Cases.refuses_old Demo.tempdir
    ([("data/a.csv", "a.csv"); ("data/gone.csv", "gone.csv")] ++
     ("data/t.CSV", "t.CSV") :: [("data/b.xlsx", "b.xlsx")]) Demo.w_data =
    (Exn (ValueError "ZIP does not support timestamps before 1980"),
     set_fs (insert (zip_path Demo.tempdir)
               (File (Demo.zip_encode
                        (members_of (w_fs Demo.w_data)
                           [("data/a.csv", "a.csv"); ("data/gone.csv", "gone.csv")]))))
       Demo.w_data).
Proof.
  apply (proj2 (proj2 (zip_pairs_failures Demo.zip_encode Demo.zip_partial
                         Cases.refuses_old Demo.tempdir
                         ([("data/a.csv", "a.csv"); ("data/gone.csv", "gone.csv")] ++
                          ("data/t.CSV", "t.CSV") :: [("data/b.xlsx", "b.xlsx")])
                         Demo.w_data))
           [("data/a.csv", "a.csv"); ("data/gone.csv", "gone.csv")]
           [("data/b.xlsx", "b.xlsx")] "data/t.CSV" "t.CSV").
  - vm_compute; discriminate.
  - reflexivity.
  - repeat constructor; vm_compute; discriminate.
  - repeat constructor.
  - vm_compute; discriminate.
  - reflexivity.
  - reflexivity.
Defined.

Lemma handlers_keep_files_witness :
  w_fs (demo_send_zip Demo.delivers (Demo.cfg "data") Demo.w_data).2 !! "data/a.csv" =
    w_fs Demo.w_data !! "data/a.csv" /\
  w_fs (demo_send_files Demo.delivers (Demo.cfg "data") Demo.w_data).2 !! "data/a.csv" =
    w_fs Demo.w_data !! "data/a.csv" /\
  w_fs (demo_start_cmd Demo.delivers (Demo.cfg "data") Demo.w_data).2 !! "data/a.csv" =
    w_fs Demo.w_data !! "data/a.csv" /\
  w_fs (demo_on_text Demo.delivers (Demo.cfg "data") "hi" Demo.w_data).2 !! "data/a.csv" =
    w_fs Demo.w_data !! "data/a.csv".
Proof.
  apply (handlers_keep_files string Demo.read_excel Demo.to_csv Demo.exn_str Demo.zip_encode
           Demo.zip_partial Demo.accepts Demo.delivers Demo.tempdir (Demo.cfg "data") "hi" Demo.w_data
           "data/a.csv").
  - intros H. apply scratch_csv_below in H. discriminate H.
  - vm_compute; discriminate.
  - vm_compute. intros H. apply list_elem_of_singleton in H. discriminate.
Defined.

Lemma send_zip_transmits_witness :
  demo_send_zip Demo.drops_documents (Demo.cfg "ports") Demo.w_ports =
    (match Demo.drops_documents (w_outbox ports_prepared)
             (ReplyDocument (Demo.zip_encode (members_of (w_fs ports_prepared) ports_entries))
                "test_portfolios.zip" zip_caption) with
     | None => Val tt
     | Some e => Exn e
     end,
     {| w_fs := removed ["/tmp/port2.csv"] (delete (zip_path Demo.tempdir) (w_fs ports_prepared));
        w_stdout := w_stdout ports_prepared;
        w_outbox := w_outbox ports_prepared ++
                    [ReplyDocument
                       (Demo.zip_encode (members_of (w_fs ports_prepared) ports_entries))
                       "test_portfolios.zip" zip_caption] |}).
Proof.
  apply (send_zip_transmits string Demo.read_excel Demo.to_csv Demo.exn_str Demo.zip_encode
           Demo.zip_partial Demo.accepts Demo.drops_documents Demo.tempdir (Demo.cfg "ports")
           Demo.w_ports ports_prepared ports_entries ["/tmp/port2.csv"]).
  - reflexivity.
  - vm_compute; reflexivity.
  - discriminate.
  - vm_compute; discriminate.
  - repeat constructor.
Defined.

Lemma send_files_delivers_all_witness :
  demo_send_files Demo.delivers (Demo.cfg "ports") Demo.w_ports =
    (Val tt,
     {| w_fs := removed ["/tmp/port2.csv"] (w_fs ports_prepared);
        w_stdout := w_stdout ports_prepared;
        w_outbox := w_outbox ports_prepared ++
                    documents_of (w_fs ports_prepared) ports_entries |}).
Proof.
  apply (send_files_delivers_all string Demo.read_excel Demo.to_csv Demo.exn_str Demo.delivers
           Demo.tempdir (Demo.cfg "ports") Demo.w_ports ports_prepared ports_entries
           ["/tmp/port2.csv"]).
  - reflexivity.
  - vm_compute; reflexivity.
  - discriminate.
  - repeat constructor.
Defined.

Lemma send_files_stops_at_unreadable_witness :
  demo_send_files Demo.delivers (Demo.cfg "box") Cases.w_nested =
    (Exn (open_error (w_fs (sent (link_message (Demo.cfg "box")) Cases.w_nested))
            "box/sub.csv"),
     {| w_fs := removed [] (w_fs (sent (link_message (Demo.cfg "box")) Cases.w_nested));
        w_stdout := w_stdout (sent (link_message (Demo.cfg "box")) Cases.w_nested);
        w_outbox := w_outbox (sent (link_message (Demo.cfg "box")) Cases.w_nested) ++
                    documents_of (w_fs (sent (link_message (Demo.cfg "box")) Cases.w_nested))
                      [("box/a.csv", "a.csv")] |}).
Proof.
  apply (send_files_stops_at_unreadable string Demo.read_excel Demo.to_csv Demo.exn_str Demo.delivers
           Demo.tempdir (Demo.cfg "box") Cases.w_nested
           (sent (link_message (Demo.cfg "box")) Cases.w_nested)
           [("box/a.csv", "a.csv")] [("box/z.csv", "z.csv")] "box/sub.csv" "sub.csv" []).
  - reflexivity.
  - vm_compute; reflexivity.
  - repeat constructor.
  - reflexivity.
Defined.

Lemma send_files_cleanup_witness :
  is_file (w_fs (demo_send_files Demo.drops_documents (Demo.cfg "ports") Demo.w_ports).2)
    "/tmp/port2.csv" = false.
Proof.
  apply (send_files_cleanup string Demo.read_excel Demo.to_csv Demo.exn_str Demo.drops_documents
           Demo.tempdir (Demo.cfg "ports") Demo.w_ports
           (sent (link_message (Demo.cfg "ports")) Demo.w_ports)
           ports_prepared ports_entries ["/tmp/port2.csv"]).
  - reflexivity.
  - vm_compute; reflexivity.
  - vm_compute. apply list_elem_of_here.
Defined.


Lemma other_text_gets_help_witness :
  demo_on_message Demo.delivers (Demo.cfg "ports") (Some "hi there") Demo.w_ports =
    (match Demo.delivers (w_outbox Demo.w_ports) (ReplyText help_text None) with
     | None => Val tt | Some e => Exn e end,
     sent (ReplyText help_text None) Demo.w_ports).
Proof.
  apply (other_text_gets_help string Demo.read_excel Demo.to_csv Demo.exn_str Demo.zip_encode
           Demo.zip_partial Demo.accepts Demo.delivers Demo.tempdir (Demo.cfg "ports")
           (Some "hi there") Demo.w_ports).
  - reflexivity.
  - vm_compute; discriminate.
Defined.

Lemma startup_decided_by_token_witness :
  exists cfg, run_script id id Cases.env_quoted = Polling cfg /\
              BOT_TOKEN cfg = Str.strip (getenv Cases.env_quoted "BOT_TOKEN" "") /\
              BOT_TOKEN cfg <> "".
Proof.
  apply (startup_decided_by_token id id Cases.env_quoted). reflexivity.
Defined.

Lemma quoted_csv_dir_is_unwrapped_witness :
  CSV_TARGET {| BOT_TOKEN := "123:abc";
                STOXEYE_URL := "https://your-stoxeye-site.example";
                CSV_TARGET := "C:/my data" |} = id (id "C:/my data").
Proof.
  apply (quoted_csv_dir_is_unwrapped id id Cases.env_quoted "  " " " "C:/my data").
  - reflexivity.
  - reflexivity.
  - right. split; eexists _, _; split; reflexivity.
  - right. split; eexists _, _; split; reflexivity.
  - vm_compute; reflexivity.
  - vm_compute; reflexivity.
Defined.
